(** * The market-neutral weight calculator of [strategy.ipynb]

    A shallow embedding of the notebook's [step] function (xarray) and of the
    pandas pipeline that precedes it, together with the properties the
    specification states about them.

    Numbers.  The notebook computes with IEEE doubles.  Rounding is not
    modelled: a finite value is an exact rational ([Qc], canonical fractions,
    so that numeric equality is Leibniz equality).  The special values are
    modelled, because the code relies on them: a missing entry is [NaN], a
    division by zero yields [PInf], [NInf] or [NaN], and [fillna] replaces
    [NaN] only.  Signed zeros are not distinguished.

    Arrays.  A two-dimensional [DataArray]/[DataFrame] over (time, asset) is a
    function [nat -> nat -> fval] read inside the bounds [ntime] x [nasset];
    positions are 0-based, as in [isel]/[iloc]. *)

From Stdlib Require Import List Arith ZArith QArith Qcanon Qcabs Lia Lqa Bool.
Import ListNotations.

(* ================================================================== *)
(** ** Values *)

Local Open Scope Qc_scope.

Inductive fval : Type :=
| Fin (q : Qc)
| PInf
| NInf
| NaN.

Definition qc_of_nat (k : nat) : Qc := Q2Qc (inject_Z (Z.of_nat k)).

Definition isnan (v : fval) : bool :=
  match v with NaN => true | _ => false end.

Definition is_finite (v : fval) : bool :=
  match v with Fin _ => true | _ => false end.

Definition vneg (x : fval) : fval :=
  match x with
  | Fin a => Fin (- a)
  | PInf => NInf
  | NInf => PInf
  | NaN => NaN
  end.

Definition vadd (x y : fval) : fval :=
  match x, y with
  | NaN, _ | _, NaN => NaN
  | Fin a, Fin b => Fin (a + b)
  | PInf, NInf | NInf, PInf => NaN
  | PInf, _ | _, PInf => PInf
  | NInf, _ | _, NInf => NInf
  end.

Definition vsub (x y : fval) : fval := vadd x (vneg y).

(** The infinity with the sign of [c] times the sign of a positive infinity;
    [inf * 0] is [NaN]. *)
Definition inf_signed (c : comparison) : fval :=
  match c with Gt => PInf | Lt => NInf | Eq => NaN end.

Definition vmul (x y : fval) : fval :=
  match x, y with
  | NaN, _ | _, NaN => NaN
  | Fin a, Fin b => Fin (a * b)
  | PInf, Fin b => inf_signed (b ?= 0)
  | NInf, Fin b => inf_signed (CompOpp (b ?= 0))
  | Fin a, PInf => inf_signed (a ?= 0)
  | Fin a, NInf => inf_signed (CompOpp (a ?= 0))
  | PInf, PInf | NInf, NInf => PInf
  | PInf, NInf | NInf, PInf => NInf
  end.

(** Division as numpy performs it: it never raises.  [x / 0] is an infinity
    with the sign of [x], [0 / 0] and [inf / inf] are [NaN], and a finite
    value over an infinity is [0]. *)
Definition vdiv (x y : fval) : fval :=
  match x, y with
  | NaN, _ | _, NaN => NaN
  | Fin a, Fin b =>
      match b ?= 0 with
      | Eq => inf_signed (a ?= 0)
      | _ => Fin (a / b)
      end
  | Fin _, PInf | Fin _, NInf => Fin 0
  | PInf, Fin b => match b ?= 0 with Lt => NInf | _ => PInf end
  | NInf, Fin b => match b ?= 0 with Lt => PInf | _ => NInf end
  | _, _ => NaN
  end.

Definition vabs (x : fval) : fval :=
  match x with
  | Fin a => Fin (Qcabs a)
  | PInf | NInf => PInf
  | NaN => NaN
  end.

(** [x > 0.0]: false on [NaN]. *)
Definition vgt0 (x : fval) : bool :=
  match x with
  | Fin a => match a ?= 0 with Gt => true | _ => false end
  | PInf => true
  | _ => false
  end.

(** [x <= 0.0]: false on [NaN]. *)
Definition vle0 (x : fval) : bool :=
  match x with
  | Fin a => match a ?= 0 with Gt => false | _ => true end
  | NInf => true
  | _ => false
  end.

(** [fillna(0.0)] on one entry. *)
Definition fillna0 (x : fval) : fval :=
  match x with NaN => Fin 0 | _ => x end.

(** Reductions with [skipna=True], the default for floating-point data:
    [NaN] entries are left out; the sum of nothing is [0]; the mean of
    nothing is [0/0 = NaN]. *)
Definition nan_to_zero (x : fval) : fval :=
  match x with NaN => Fin 0 | _ => x end.

Definition vsum (l : list fval) : fval := fold_right vadd (Fin 0) l.

Definition nansum (l : list fval) : fval := vsum (map nan_to_zero l).

Definition count_valid (l : list fval) : nat :=
  length (filter (fun v => negb (isnan v)) l).

Definition nanmean (l : list fval) : fval :=
  vdiv (nansum l) (Fin (qc_of_nat (count_valid l))).

(** Boolean equality, to decide equations between computed values. *)
Definition fval_eqb (x y : fval) : bool :=
  match x, y with
  | Fin a, Fin b => Qc_eq_bool a b
  | PInf, PInf | NInf, NInf | NaN, NaN => true
  | _, _ => false
  end.

Fixpoint row_eqb (l1 l2 : list fval) : bool :=
  match l1, l2 with
  | [], [] => true
  | x :: l1', y :: l2' => fval_eqb x y && row_eqb l1' l2'
  | _, _ => false
  end.

(* ================================================================== *)
(** ** Arrays and the Panel *)

Local Open Scope nat_scope.

Definition arr := nat -> nat -> fval.

(** The Panel: [data] with dimensions (time, field, asset) and the two fields
    ["close"] and ["is_liquid"], in the order in which it is supplied. *)
Record Panel : Type := {
  ntime : nat;
  nasset : nat;
  p_time : nat -> Z;
  p_close : arr;
  p_is_liquid : arr
}.

(** [x.loc[::-1]] / [x.iloc[::-1, :]]: the time axis in reverse order. *)
Definition reverse_time {A : Type} (n : nat) (x : nat -> A) : nat -> A :=
  fun t => x (n - 1 - t).

(** [x.shift({"time": 1})]: entry [t] holds the old entry [t-1]; the first
    entry is missing. *)
Definition shift (x : arr) : arr :=
  fun t a => match t with O => NaN | S t' => x t' a end.

(** The [w] entries of the window that ends at [t], oldest first; positions
    before the start of the axis are padding ([NaN]). *)
Definition window_at (w : nat) (x : nat -> fval) (t : nat) : list fval :=
  map (fun i => if t + 1 + i <? w then NaN else x (t + 1 + i - w)) (seq 0 w).

(** The windowed mean with [min_periods] equal to the window size: the
    mean of the window where it holds [w] observations, missing elsewhere.
    This is what pandas' [rolling(w).mean()] computes, and the reference for
    the running computation below. *)
Definition rolling_mean (w : nat) (x : arr) : arr :=
  fun t a =>
    let vs := window_at w (fun s => x s a) t in
    if w <=? count_valid vs then nanmean vs else NaN.

(** [x.rolling({"time": w}).mean()] on a [DataArray] is computed by
    [bottleneck.move_mean(values, window=w, min_count=w)], one series at a
    time, with a running sum [asum] and a running number of observations
    [count]. *)
Record mm_state : Type := {
  mm_sum : fval;
  mm_count : nat
}.

Definition mm_init : mm_state := {| mm_sum := Fin 0; mm_count := 0 |}.

(** The first [w] entries: [if (ai == ai) { asum += ai; count += 1; }] *)
Definition mm_add (s : mm_state) (ai : fval) : mm_state :=
  if isnan ai then s
  else {| mm_sum := vadd (mm_sum s) ai; mm_count := S (mm_count s) |}.

(** The later entries, with [aold] the entry that leaves the window:
    [asum += ai - aold], or [asum += ai; count++], or
    [asum -= aold; count--], or nothing. *)
Definition mm_slide (s : mm_state) (ai aold : fval) : mm_state :=
  if isnan ai then
    if isnan aold then s
    else {| mm_sum := vsub (mm_sum s) aold; mm_count := mm_count s - 1 |}
  else
    if isnan aold
    then {| mm_sum := vadd (mm_sum s) ai; mm_count := S (mm_count s) |}
    else {| mm_sum := vadd (mm_sum s) (vsub ai aold);
            mm_count := mm_count s |}.

(** The running state after the first [k] entries of the series. *)
Fixpoint mm_run (w : nat) (x : nat -> fval) (k : nat) : mm_state :=
  match k with
  | O => mm_init
  | S i =>
      if i <? w then mm_add (mm_run w x i) (x i)
      else mm_slide (mm_run w x i) (x i) (x (i - w))
  end.

(** The output at position [t]: missing for the first [min_count - 1]
    positions; then [asum / count] up to position [w - 1] and
    [asum * (1.0 / count)] from position [w] on, where
    [count >= min_count], and missing elsewhere. *)
Definition move_mean (w : nat) (x : nat -> fval) (t : nat) : fval :=
  let s := mm_run w x (S t) in
  if t + 1 <? w then NaN
  else if w <=? mm_count s then
         if t <? w
         then vdiv (mm_sum s) (Fin (qc_of_nat (mm_count s)))
         else vmul (mm_sum s)
                   (vdiv (Fin 1) (Fin (qc_of_nat (mm_count s))))
       else NaN.

Definition window : nat := 100.

(** [(is_liquid > 0.0).astype(int)] *)
Definition liquid_int (is_liquid : arr) : arr :=
  fun t a => if vgt0 (is_liquid t a) then Fin 1 else Fin 0.

(** The assets along the ["asset"] axis. *)
Definition assets (n : nat) : list nat := seq 0 n.

(* ================================================================== *)
(** ** The body of [step], after the two reversed slices are taken *)

Section StepBody.

Variable n_asset : nat.
Variables is_liquid prices : arr.

Definition prices_shifted : arr := shift prices.

Definition returns : arr :=
  fun t a => vdiv (vsub (prices t a) (prices_shifted t a)) (prices_shifted t a).

(** [returns.rolling({"time": 100}).mean()] *)
Definition avg_returns : arr :=
  fun t a => move_mean window (fun s => returns s a) t.

Definition liq_avg_returns : arr :=
  fun t a => vmul (liquid_int is_liquid t a) (avg_returns t a).

(** [liq_avg_returns.where(is_liquid > 0.0).mean("asset")] *)
Definition liq_avg_returns_mean : nat -> fval :=
  fun t =>
    nanmean (map (fun a => if vgt0 (is_liquid t a)
                           then liq_avg_returns t a else NaN)
                 (assets n_asset)).

(** First assignment of [liq_avg_returns_neutralized]. *)
Definition liq_avg_returns_demeaned : arr :=
  fun t a => vsub (liq_avg_returns t a) (liq_avg_returns_mean t).

(** Second assignment: the liquidity mask is applied again. *)
Definition liq_avg_returns_neutralized : arr :=
  fun t a => vmul (liquid_int is_liquid t a) (liq_avg_returns_demeaned t a).

(** [abs(liq_avg_returns_neutralized).sum("asset")] *)
Definition abs_sum : nat -> fval :=
  fun t => nansum (map (fun a => vabs (liq_avg_returns_neutralized t a))
                       (assets n_asset)).

Definition weights_raw : arr :=
  fun t a => vdiv (liq_avg_returns_neutralized t a) (abs_sum t).

(** [weights.fillna(0.0)] *)
Definition weights : arr :=
  fun t a => fillna0 (weights_raw t a).

(** One row of [weights], as a vector over the assets. *)
Definition weights_row (t : nat) : list fval :=
  map (weights t) (assets n_asset).

End StepBody.

(** The value [step] returns: one weight per asset, with the scalar time
    coordinate that [weights[-1]] keeps. *)
Record WeightVector : Type := {
  wv_time : Z;
  wv_weights : list fval
}.

(** [data.loc[::-1, "is_liquid", :]] and [data.loc[::-1, "close", :]] *)
Definition is_liquid_of (data : Panel) : arr :=
  reverse_time (ntime data) (p_is_liquid data).

Definition prices_of (data : Panel) : arr :=
  reverse_time (ntime data) (p_close data).

Definition time_of (data : Panel) : nat -> Z :=
  reverse_time (ntime data) (p_time data).

(** [step(data)].  [bottleneck.move_mean] raises [ValueError] when the
    window is longer than the time axis, so [step] fails on a Panel with
    fewer than 100 time steps, the Panel without time steps included:
    [None]. *)
Definition step (data : Panel) : option WeightVector :=
  if ntime data <? window then None
  else
    match ntime data with
    | O => None
    | S last =>
        Some {| wv_time := time_of data last;
                wv_weights := weights_row (nasset data) (is_liquid_of data)
                                          (prices_of data) last |}
    end.

(* ================================================================== *)
(** ** The pandas pipeline of the notebook

    The cell that precedes [step] computes the whole [weights] frame with
    pandas.  Its lines are embedded one by one under the same names. *)

Module Pandas.

(** [df.fillna(method="pad")] along time: a missing entry takes the most
    recent earlier entry that is present. *)
Fixpoint pad (x : arr) (t a : nat) {struct t} : fval :=
  match t with
  | O => x O a
  | S t' => match x t a with NaN => pad x t' a | v => v end
  end.

(** [prices.pct_change(1)]: with its default [fill_method="pad"] the frame
    is forward-filled first, then [filled / filled.shift(1) - 1]. *)
Definition pct_change (x : arr) : arr :=
  fun t a => vsub (vdiv (pad x t a) (shift (pad x) t a)) (Fin 1).

(** The rolling reductions of pandas turn infinite entries into missing
    ones before they reduce. *)
Definition inf_to_nan (v : fval) : fval :=
  match v with PInf | NInf => NaN | _ => v end.

(** [x.rolling(w).mean()], with [min_periods] equal to the window size. *)
Definition rolling_mean (w : nat) (x : arr) : arr :=
  rolling_mean w (fun t a => inf_to_nan (x t a)).

Section Cell.

Variable n_asset : nat.
Variables is_liquid prices : arr.

Definition returns : arr := pct_change prices.

Definition avg_returns : arr := rolling_mean window returns.

(** [(is_liquid > 0.0).astype(int).multiply(avg_returns)] *)
Definition liq_avg_returns : arr :=
  fun t a => vmul (liquid_int is_liquid t a) (avg_returns t a).

(** [liq_avg_returns[is_liquid > 0.0].mean(axis=1)] *)
Definition liq_avg_returns_mean : nat -> fval :=
  fun t =>
    nanmean (map (fun a => if vgt0 (is_liquid t a)
                           then liq_avg_returns t a else NaN)
                 (assets n_asset)).

(** [liq_avg_returns.subtract(liq_avg_returns_mean, axis=0)] *)
Definition liq_avg_returns_demeaned : arr :=
  fun t a => vsub (liq_avg_returns t a) (liq_avg_returns_mean t).

Definition liq_avg_returns_neutralized : arr :=
  fun t a => vmul (liquid_int is_liquid t a) (liq_avg_returns_demeaned t a).

(** [liq_avg_returns_neutralized.abs().sum(axis=1, skipna=True)] *)
Definition abs_sum : nat -> fval :=
  fun t => nansum (map (fun a => vabs (liq_avg_returns_neutralized t a))
                       (assets n_asset)).

(** [.div(..., axis=0)] followed by [fillna(0.0)] *)
Definition weights : arr :=
  fun t a => fillna0 (vdiv (liq_avg_returns_neutralized t a) (abs_sum t)).

End Cell.

(** The row of the [weights] frame at the last time index,
    [weights.iloc[-1]]; there is none when the frame is empty. *)
Definition last_row (data : Panel) : option WeightVector :=
  match ntime data with
  | O => None
  | S last =>
      Some {| wv_time := time_of data last;
              wv_weights := map (weights (nasset data) (is_liquid_of data)
                                         (prices_of data) last)
                                (assets (nasset data)) |}
  end.

End Pandas.
(* ================================================================== *)
(** ** Auxiliary definitions used to state the properties *)

Section FiniteParts.

Local Open Scope Qc_scope.

Definition qpart (v : fval) : Qc :=
  match v with Fin q => q | _ => 0 end.

Definition fin_or_nan (v : fval) : Prop :=
  match v with Fin _ | NaN => True | _ => False end.

Definition qsum (l : list Qc) : Qc := fold_right Qcplus 0 l.

End FiniteParts.

(** *** One time step

    Everything after the rolling mean acts on each time step separately.
    This section restates lines 168-173 of [step] for a single step, given
    that step's liquidity flags [liq] and average returns [x]. *)

Section CrossSection.

Variable n : nat.
Variable liq : nat -> bool.
Variable x : nat -> fval.

Definition cs_int (a : nat) : fval := if liq a then Fin 1 else Fin 0.

Definition cs_liq_avg (a : nat) : fval := vmul (cs_int a) (x a).

Definition cs_masked (a : nat) : fval := if liq a then cs_liq_avg a else NaN.

Definition cs_mean : fval := nanmean (map cs_masked (assets n)).

Definition cs_neutralized (a : nat) : fval :=
  vmul (cs_int a) (vsub (cs_liq_avg a) cs_mean).

Definition cs_abs_sum : fval :=
  nansum (map (fun a => vabs (cs_neutralized a)) (assets n)).

Definition cs_weight (a : nat) : fval :=
  fillna0 (vdiv (cs_neutralized a) cs_abs_sum).

End CrossSection.

(** *** The window of the running mean *)

(** The last [w] of the first [k] entries of a series, oldest first, with
    padding in front while there are fewer: the window on which the running
    state rests after [k] entries. *)
Definition window_before (w : nat) (x : nat -> fval) (k : nat) : list fval :=
  map (fun i => if k + i <? w then NaN else x (k + i - w)) (seq 0 w).

(** *** The weights series of a Panel *)

(** Row [t] of the [weights] array that [step] builds from [data]; [t]
    counts along the reversed (computation) time axis. *)
Definition weights_at (data : Panel) (t : nat) : list fval :=
  weights_row (nasset data) (is_liquid_of data) (prices_of data) t.

Definition weight_at (data : Panel) (t a : nat) : fval :=
  weights (nasset data) (is_liquid_of data) (prices_of data) t a.

Definition neutralized_at (data : Panel) (t a : nat) : fval :=
  liq_avg_returns_neutralized (nasset data) (is_liquid_of data)
                              (prices_of data) t a.

Definition abs_sum_at (data : Panel) (t : nat) : fval :=
  abs_sum (nasset data) (is_liquid_of data) (prices_of data) t.

Definition liquid_at (data : Panel) (t a : nat) : bool :=
  vgt0 (is_liquid_of data t a).

Definition zeros (n : nat) : list fval := repeat (Fin (Q2Qc 0)) n.

(** The [window] returns that end at [t], for asset [a]. *)
Definition trailing_returns (data : Panel) (t a : nat) : list fval :=
  window_at window (fun s => returns (prices_of data) s a) t.

(** Every asset has [window] trailing return observations at [t]: each
    return of the window is a number. *)
Definition full_history (data : Panel) (t : nat) : Prop :=
  forall a, a < nasset data ->
    Forall (fun v => is_finite v = true) (trailing_returns data t a).

Definition full_historyb (data : Panel) (t : nat) : bool :=
  forallb (fun a => forallb is_finite (trailing_returns data t a))
          (assets (nasset data)).

(** No return of the asset before the window that ends at [t] is infinite:
    every close that precedes the window by a day or more is missing or
    nonzero where the next close is present. *)
Definition no_infinite_return_before (data : Panel) (t a : nat) : Prop :=
  forall s, s + window <= t -> fin_or_nan (returns (prices_of data) s a).

Definition no_infinite_return_beforeb (data : Panel) (t a : nat) : bool :=
  forallb (fun s => match returns (prices_of data) s a with
                    | PInf | NInf => false
                    | _ => true
                    end)
          (seq 0 (t + 1 - window)).

(** *** Panels and time *)

(** The rows of [data] up to and including position [t] of the computation
    axis: what a walk-forward driver hands to [step] at that time. *)
Definition upto (data : Panel) (t : nat) : Panel :=
  {| ntime := t + 1;
     nasset := nasset data;
     p_time := fun i => p_time data (i + (ntime data - 1 - t));
     p_close := fun i a => p_close data (i + (ntime data - 1 - t)) a;
     p_is_liquid := fun i a => p_is_liquid data (i + (ntime data - 1 - t)) a |}.



(** Two Panels with the same entries inside the bounds of the first. *)
Definition same_inside (d1 d2 : Panel) : Prop :=
  ntime d1 = ntime d2 /\ nasset d1 = nasset d2 /\
  forall i, i < ntime d1 ->
    p_time d1 i = p_time d2 i /\
    forall a, a < nasset d1 ->
      p_close d1 i a = p_close d2 i a
      /\ p_is_liquid d1 i a = p_is_liquid d2 i a.

(** The time axis as supplied runs from the most recent date back. *)
Definition descending (data : Panel) : Prop :=
  forall i j, i < j -> j < ntime data -> (p_time data j < p_time data i)%Z.

(** The time axis as supplied runs from the oldest date on. *)
Definition ascending (data : Panel) : Prop :=
  forall i j, i < j -> j < ntime data -> (p_time data i < p_time data j)%Z.

Definition sortedb (lt : Z -> Z -> bool) (data : Panel) : bool :=
  forallb (fun i => lt (p_time data i) (p_time data (S i)))
          (seq 0 (ntime data - 1)).

(** The same Panel with its rows in the opposite order. *)
Definition reversed (data : Panel) : Panel :=
  {| ntime := ntime data;
     nasset := nasset data;
     p_time := reverse_time (ntime data) (p_time data);
     p_close := reverse_time (ntime data) (p_close data);
     p_is_liquid := reverse_time (ntime data) (p_is_liquid data) |}.

(** The weights of the last row when the pipeline runs over the rows in the
    order in which they are stored, without the reversal of [step]; like
    [step] it fails where the window is longer than the time axis. *)
Definition last_row_in_order (data : Panel) : option WeightVector :=
  if ntime data <? window then None
  else
    match ntime data with
    | O => None
    | S last =>
        Some {| wv_time := p_time data last;
                wv_weights := weights_row (nasset data) (p_is_liquid data)
                                          (p_close data) last |}
    end.

(** Every close is a nonzero number or missing. *)
Definition closes_nonzero (data : Panel) : Prop :=
  forall i a, i < ntime data -> a < nasset data ->
    p_close data i a = NaN
    \/ exists q, p_close data i a = Fin q /\ q <> Q2Qc 0.


Definition closes_nonzerob (data : Panel) : bool :=
  forallb (fun i =>
             forallb (fun a => match p_close data i a with
                               | NaN => true
                               | Fin q => negb (Qeq_bool q 0)
                               | _ => false
                               end)
                     (assets (nasset data)))
          (seq 0 (ntime data)).


(** Boolean equality of results. *)
Definition wv_eqb (w1 w2 : WeightVector) : bool :=
  Z.eqb (wv_time w1) (wv_time w2) && row_eqb (wv_weights w1) (wv_weights w2).

Definition result_eqb (r1 r2 : option WeightVector) : bool :=
  match r1, r2 with
  | Some w1, Some w2 => wv_eqb w1 w2
  | None, None => true
  | _, _ => false
  end.

(* ================================================================== *)
(** ** Example Panels *)

Definition qz (z : Z) : Qc := Q2Qc (inject_Z z).

(** A Panel as the loader supplies it (most recent date first), described
    by its entries in date order. *)
Definition supplied (n na : nat) (tm : nat -> Z) (cl il : arr) : Panel :=
  {| ntime := n;
     nasset := na;
     p_time := reverse_time n tm;
     p_close := reverse_time n cl;
     p_is_liquid := reverse_time n il |}.

(** Three assets: the first doubles every day, the second is flat, the third
    triples every day and is never liquid. *)
Definition demo_close : arr :=
  fun s a =>
    match a with
    | 0 => Fin (qz (2 ^ Z.of_nat s))
    | 1 => Fin (qz 1)
    | _ => Fin (qz (3 ^ Z.of_nat s))
    end.

Definition demo_liquid : arr :=
  fun _ a => match a with 2 => Fin (qz 0) | _ => Fin (qz 1) end.

Definition demo_time : nat -> Z := fun s => (18000 + Z.of_nat s)%Z.

Definition demo : Panel := supplied 102 3 demo_time demo_close demo_liquid.

(** The same history, followed by three more days on which the first asset
    halves, the third becomes liquid and the second loses its close. *)
Definition demo_later : Panel :=
  supplied 105 3 demo_time
    (fun s a =>
       if s <? 102 then demo_close s a
       else match a with
            | 0 => Fin (qz (2 ^ Z.of_nat (204 - s)))
            | 1 => NaN
            | _ => Fin (qz 7)
            end)
    (fun s a => if s <? 102 then demo_liquid s a else Fin (qz 1)).

(** A Panel without a single date. *)
Definition empty_panel : Panel := supplied 0 3 demo_time demo_close demo_liquid.

(** Forty days of history. *)
Definition short_panel : Panel := supplied 40 3 demo_time demo_close demo_liquid.

(** All three assets liquid; the first has no close on the second day. *)
Definition gap_panel : Panel :=
  supplied 102 3 demo_time
    (fun s a => match s, a with 1, 0 => NaN | _, _ => demo_close s a end)
    (fun _ _ => Fin (qz 1)).

(** Two liquid assets; the first has no close on the last day but one. *)
Definition missing_panel : Panel :=
  supplied 102 2 demo_time
    (fun s a => match s, a with 100, 0 => NaN | _, _ => demo_close s a end)
    (fun _ _ => Fin (qz 1)).

(** Two liquid assets whose closes never move: their signals cancel. *)
Definition flat_panel : Panel :=
  supplied 102 2 demo_time (fun _ _ => Fin (qz 5)) (fun _ _ => Fin (qz 1)).

(** Closes in date order with one zero: the first asset closes at 0 on day
    50 and at 2^s on every other day. *)
Definition zero_close_panel : Panel :=
  supplied 102 3 demo_time
    (fun s a => match a with
                | 0 => if s =? 50 then Fin (qz 0) else demo_close s a
                | _ => demo_close s a
                end)
    (fun _ _ => Fin (qz 1)).



(* ================================================================== *)
(** ** Exposures of a weight vector *)



(** What the notebook displays to check full investment:
    [weights.abs().sum(axis=1)] for one row. *)
Definition gross_exposure (l : list fval) : fval := nansum (map vabs l).




(** One row of the [weights] frame of the pandas cell. *)
Definition pandas_weights_at (data : Panel) (t : nat) : list fval :=
  map (Pandas.weights (nasset data) (is_liquid_of data) (prices_of data) t)
      (assets (nasset data)).

(** The shape of a row of weights: numbers that sum to zero and whose
    absolute values sum to 0 or to 1. *)
Definition balanced (l : list fval) : Prop :=
  exists ws, l = map Fin ws
             /\ qsum ws = Q2Qc 0
             /\ (qsum (map Qcabs ws) = Q2Qc 0 \/ qsum (map Qcabs ws) = Q2Qc 1).

(* ================================================================== *)
(** ** Reading and transforming Panels and results *)

(** The weight of asset [a] in a returned vector. *)
Definition weight_of (w : WeightVector) (a : nat) : fval :=
  nth a (wv_weights w) NaN.



(** The same Panel with other liquidity indicators. *)
Definition with_liquidity (il : arr) (data : Panel) : Panel :=
  {| ntime := ntime data;
     nasset := nasset data;
     p_time := p_time data;
     p_close := p_close data;
     p_is_liquid := il |}.

(** The whole [weights] array, one vector per date of the reversed
    axis. *)
Definition weights_rows (data : Panel) : list WeightVector :=
  map (fun t => {| wv_time := time_of data t;
                   wv_weights := weights_at data t |})
      (seq 0 (ntime data)).

(** The submission template at the end of the notebook: the body of [step]
    without the final [weights[-1]]; the whole [weights] array is written
    out.  As in [step], the rolling mean fails on a time axis shorter than
    its window. *)
Definition template_weights (data : Panel) : option (list WeightVector) :=
  if ntime data <? window then None else Some (weights_rows data).

(** The demo history with only the first asset liquid. *)
Definition lonely_panel : Panel :=
  supplied 102 3 demo_time demo_close
    (fun _ a => match a with 0 => Fin (qz 1) | _ => Fin (qz 0) end).

(** The demo history with another liquidity record: the same sign on the
    most recent day, anything before. *)
Definition other_liquidity : arr :=
  reverse_time 102
    (fun s a => if s =? 101
                then match a with 2 => Fin (qz (-3)) | _ => Fin (qz 9) end
                else match a with 2 => Fin (qz 1) | _ => NaN end).



(** The same Panel with other closes. *)
Definition with_closes (cl : arr) (data : Panel) : Panel :=
  {| ntime := ntime data;
     nasset := nasset data;
     p_time := p_time data;
     p_close := cl;
     p_is_liquid := p_is_liquid data |}.

(** The demo closes with the history of the third asset, which is not
    liquid, replaced: missing on even days, zero on odd days. *)
Definition other_closes : arr :=
  reverse_time 102
    (fun s a => match a with
                | 2 => if Nat.even s then NaN else Fin (qz 0)
                | _ => demo_close s a
                end).
(* ================================================================== *)
(** ** Facts about values *)

Section ValueFacts.

Local Open Scope Qc_scope.

Lemma qc_compare_refl (a : Qc) : (a ?= a) = Eq.
Proof. apply Qceq_alt. reflexivity. Qed.

Lemma qc_compare_neq (a b : Qc) : a <> b -> (a ?= b) <> Eq.
Proof. intros H E. apply H. apply Qceq_alt. exact E. Qed.

Lemma qc_div_0 (a : Qc) : a / 0 = 0.
Proof.
  unfold Qcdiv. replace (/ 0) with 0 by (apply Qc_is_canon; reflexivity).
  ring.
Qed.

Lemma qc_of_nat_S (k : nat) : qc_of_nat (S k) = qc_of_nat k + 1.
Proof.
  unfold qc_of_nat. apply Qc_is_canon.
  rewrite Nat2Z.inj_succ. unfold Z.succ. rewrite inject_Z_plus.
  unfold Qcplus, Q2Qc, this.
  rewrite !Qred_correct. reflexivity.
Qed.

Lemma qc_of_nat_nonneg (k : nat) : 0 <= qc_of_nat k.
Proof.
  induction k as [|k IH].
  - unfold Qcle. simpl. apply Qle_refl.
  - rewrite qc_of_nat_S.
    replace 0 with (0 + 0) by ring.
    apply Qcplus_le_compat; [exact IH|].
    unfold Qcle. simpl. discriminate.
Qed.

Lemma qc_of_nat_pos (k : nat) : qc_of_nat (S k) <> 0.
Proof.
  rewrite qc_of_nat_S. intros H.
  assert (L : 0 + 1 <= qc_of_nat k + 1).
  { apply Qcplus_le_compat; [apply qc_of_nat_nonneg | apply Qcle_refl]. }
  rewrite H in L. revert L. unfold Qcle. simpl. intros L. apply L. reflexivity.
Qed.

Lemma vdiv_fin (a b : Qc) : b <> 0 -> vdiv (Fin a) (Fin b) = Fin (a / b).
Proof.
  intros H. unfold vdiv.
  destruct (b ?= 0) eqn:E; try reflexivity.
  apply Qceq_alt in E. contradiction.
Qed.


Lemma vdiv_nan_r (x : fval) : vdiv x NaN = NaN.
Proof. destruct x; reflexivity. Qed.

Lemma vadd_fin_inv (x y : fval) (s : Qc) :
  vadd x y = Fin s -> exists a b, x = Fin a /\ y = Fin b /\ s = a + b.
Proof.
  destruct x as [a| | |], y as [b| | |]; simpl; try discriminate.
  intros H. injection H as <-. exists a, b. auto.
Qed.

Lemma vadd_nonfin_r (x y : fval) :
  is_finite y = false -> is_finite (vadd x y) = false.
Proof. destruct x, y; simpl; auto. Qed.

Lemma vmul_nonfin_r (x y : fval) :
  is_finite y = false -> is_finite (vmul x y) = false.
Proof.
  destruct x as [a| | |], y as [b| | |]; simpl; auto;
    match goal with |- context [?u ?= ?v] => destruct (u ?= v) end; auto.
Qed.

Lemma vsub_nonfin_r (x y : fval) :
  is_finite y = false -> is_finite (vsub x y) = false.
Proof.
  intros H. unfold vsub. apply vadd_nonfin_r. destruct y; auto.
Qed.

Lemma fin_or_nan_nan_to_zero (v : fval) :
  is_finite (nan_to_zero v) = true -> fin_or_nan v.
Proof. destruct v; simpl; auto; discriminate. Qed.

Lemma vsum_fin {A : Type} (f : A -> Qc) (l : list A) :
  vsum (map (fun a => Fin (f a)) l) = Fin (qsum (map f l)).
Proof.
  induction l as [|a l IH]; [reflexivity|].
  change (vadd (Fin (f a)) (vsum (map (fun a => Fin (f a)) l))
          = Fin (f a + qsum (map f l))).
  rewrite IH. reflexivity.
Qed.

(** A finite [nansum] means that no summand was infinite, and it is the sum
    of the finite parts. *)
Lemma nansum_fin_inv (l : list fval) (s : Qc) :
  nansum l = Fin s ->
  Forall fin_or_nan l /\ s = qsum (map qpart l).
Proof.
  revert s. induction l as [|v l IH]; intros s H.
  - split; [constructor|]. injection H as <-. reflexivity.
  - unfold nansum in H. simpl in H.
    apply vadd_fin_inv in H. destruct H as (a & b & Ha & Hb & ->).
    destruct (IH b Hb) as [HF Hs].
    split.
    + constructor; [|exact HF].
      apply fin_or_nan_nan_to_zero. rewrite Ha. reflexivity.
    + simpl. rewrite <- Hs.
      destruct v; simpl in Ha; try discriminate;
        injection Ha as <-; reflexivity.
Qed.

Lemma nansum_all_fin (l : list fval) :
  Forall fin_or_nan l -> nansum l = Fin (qsum (map qpart l)).
Proof.
  induction 1 as [|v l Hv _ IH]; [reflexivity|].
  unfold nansum in *. simpl. rewrite IH.
  destruct v; simpl in *; try contradiction; reflexivity.
Qed.

Lemma nansum_all_nan {A : Type} (f : A -> fval) (l : list A) :
  (forall a, In a l -> f a = NaN) -> nansum (map f l) = Fin 0.
Proof.
  induction l as [|a l IH]; intros H; [reflexivity|].
  unfold nansum in *. simpl. rewrite (H a (or_introl eq_refl)).
  rewrite IH by (intros; apply H; right; assumption).
  reflexivity.
Qed.

Lemma count_valid_all_nan {A : Type} (f : A -> fval) (l : list A) :
  (forall a, In a l -> f a = NaN) -> count_valid (map f l) = 0%nat.
Proof.
  induction l as [|a l IH]; intros H; [reflexivity|].
  unfold count_valid in *. simpl. rewrite (H a (or_introl eq_refl)). simpl.
  apply IH. intros; apply H; right; assumption.
Qed.

Lemma nanmean_all_nan {A : Type} (f : A -> fval) (l : list A) :
  (forall a, In a l -> f a = NaN) -> nanmean (map f l) = NaN.
Proof.
  intros H. unfold nanmean.
  rewrite nansum_all_nan by exact H.
  rewrite count_valid_all_nan by exact H. reflexivity.
Qed.

Lemma count_valid_le (l : list fval) : (count_valid l <= length l)%nat.
Proof. unfold count_valid. apply filter_length_le. Qed.

Lemma count_valid_nan_lt (l : list fval) :
  In NaN l -> (count_valid l < length l)%nat.
Proof.
  induction l as [|v l IH]; intros H; [contradiction|].
  unfold count_valid in *. simpl.
  destruct H as [->|H].
  - simpl. pose proof (filter_length_le (fun v => negb (isnan v)) l). lia.
  - specialize (IH H). destruct (negb (isnan v)); simpl; lia.
Qed.

Lemma count_valid_full (l : list fval) :
  (length l <= count_valid l)%nat -> Forall (fun v => isnan v = false) l.
Proof.
  intros H. apply Forall_forall. intros v Hv.
  destruct v; try reflexivity.
  apply count_valid_nan_lt in Hv. lia.
Qed.

Lemma count_valid_no_nan (l : list fval) :
  Forall (fun v => isnan v = false) l -> count_valid l = length l.
Proof.
  induction 1 as [|v l Hv _ IH]; [reflexivity|].
  unfold count_valid in *. simpl. rewrite Hv. simpl. f_equal. exact IH.
Qed.

Lemma qsum_abs_nonneg (l : list Qc) : 0 <= qsum (map Qcabs l).
Proof.
  induction l as [|q l IH]; simpl.
  - apply Qcle_refl.
  - replace 0 with (0 + 0) by ring.
    apply Qcplus_le_compat; [apply Qcabs_nonneg | exact IH].
Qed.

Lemma qsum_abs_zero (l : list Qc) :
  qsum (map Qcabs l) = 0 -> forall q, In q l -> q = 0.
Proof.
  induction l as [|p l IH]; intros H q Hq; [contradiction|].
  simpl in H.
  assert (Hp : Qcabs p = 0 /\ qsum (map Qcabs l) = 0).
  { pose proof (Qcabs_nonneg p) as A. pose proof (qsum_abs_nonneg l) as B.
    assert (C : Qcabs p <= 0).
    { rewrite <- H. replace (Qcabs p) with (Qcabs p + 0) at 1 by ring.
      apply Qcplus_le_compat; [apply Qcle_refl | exact B]. }
    assert (D : Qcabs p = 0) by (apply Qcle_antisym; assumption).
    split; [exact D|]. rewrite D in H. rewrite Qcplus_0_l in H. exact H. }
  destruct Hp as [Hp Hl].
  destruct Hq as [<-|Hq]; [apply Qcabs_null; exact Hp | apply IH; assumption].
Qed.

Lemma qsum_scale (l : list Qc) (c : Qc) :
  qsum (map (fun q => q * c) l) = qsum l * c.
Proof.
  induction l as [|q l IH]; simpl; [ring|]. rewrite IH. ring.
Qed.

Lemma nansum_abs_shape {A : Type} (f : A -> fval) (l : list A) :
  (exists s, nansum (map (fun a => vabs (f a)) l) = Fin s)
  \/ nansum (map (fun a => vabs (f a)) l) = PInf.
Proof.
  induction l as [|a l IH]; [left; exists 0; reflexivity|].
  unfold nansum in *. simpl.
  destruct IH as [[s ->] | ->]; destruct (f a); simpl; eauto.
Qed.

Lemma nansum_abs_inf {A : Type} (f : A -> fval) (l : list A) :
  nansum (map (fun a => vabs (f a)) l) = PInf ->
  exists a, In a l /\ (f a = PInf \/ f a = NInf).
Proof.
  induction l as [|a l IH]; [discriminate|].
  intros H. destruct (f a) eqn:E.
  - destruct (nansum_abs_shape f l) as [[s E2] | E2].
    + unfold nansum in *. simpl in H. rewrite E, E2 in H. discriminate.
    + destruct (IH E2) as (b & Hb & Fb). exists b. split; [right|]; assumption.
  - exists a. split; [left; reflexivity | left; exact E].
  - exists a. split; [left; reflexivity | right; exact E].
  - destruct (nansum_abs_shape f l) as [[s E2] | E2].
    + unfold nansum in *. simpl in H. rewrite E, E2 in H. discriminate.
    + destruct (IH E2) as (b & Hb & Fb). exists b. split; [right|]; assumption.
Qed.

Lemma qpart_vabs (v : fval) : qpart (vabs v) = Qcabs (qpart v).
Proof. destruct v; simpl; try reflexivity; apply Qc_is_canon; reflexivity. Qed.

Lemma nansum_abs_fin {A : Type} (f : A -> fval) (l : list A) (s : Qc) :
  nansum (map (fun a => vabs (f a)) l) = Fin s ->
  (forall a, In a l -> fin_or_nan (f a))
  /\ s = qsum (map Qcabs (map (fun a => qpart (f a)) l)).
Proof.
  intros H. apply nansum_fin_inv in H. destruct H as [HF ->]. split.
  - intros a Ha. rewrite Forall_forall in HF.
    specialize (HF (vabs (f a))).
    assert (I : In (vabs (f a)) (map (fun a => vabs (f a)) l))
      by (apply in_map_iff; exists a; auto).
    specialize (HF I). destruct (f a); simpl in *; auto.
  - rewrite !map_map. f_equal. apply map_ext. intros a. apply qpart_vabs.
Qed.

Lemma vdiv_fin_inv (v : fval) (k m : Qc) :
  vdiv v (Fin k) = Fin m -> exists s, v = Fin s /\ k <> 0 /\ m = s / k.
Proof.
  destruct v as [s| | |]; simpl.
  - destruct (k ?= 0) eqn:E.
    + destruct (s ?= 0); discriminate.
    + intros H. injection H as <-. exists s. repeat split.
      intros ->. discriminate.
    + intros H. injection H as <-. exists s. repeat split.
      intros ->. discriminate.
  - destruct (k ?= 0); discriminate.
  - destruct (k ?= 0); discriminate.
  - discriminate.
Qed.

Lemma qsum_zeros {A : Type} (f : A -> Qc) (l : list A) :
  (forall a, In a l -> f a = 0) -> qsum (map f l) = 0.
Proof.
  induction l as [|a l IH]; intros H; [reflexivity|].
  simpl. rewrite (H a (or_introl eq_refl)).
  rewrite IH by (intros; apply H; right; assumption). ring.
Qed.

Lemma count_valid_pos (l : list fval) (v : fval) :
  In v l -> isnan v = false -> (0 < count_valid l)%nat.
Proof.
  induction l as [|u l IH]; intros Hin Hv; [contradiction|].
  unfold count_valid in *. simpl.
  destruct Hin as [->|Hin].
  - rewrite Hv. simpl. lia.
  - specialize (IH Hin Hv). destruct (negb (isnan u)); simpl; lia.
Qed.

Lemma qsum_app (l1 l2 : list Qc) : qsum (l1 ++ l2) = qsum l1 + qsum l2.
Proof.
  induction l1 as [|q l1 IH]; simpl; [ring|]. rewrite IH. ring.
Qed.

End ValueFacts.

(* ================================================================== *)
(** ** Facts about one time step *)

Section CrossSectionFacts.

Local Open Scope Qc_scope.

Variable n : nat.
Variable liq : nat -> bool.
Variable x : nat -> fval.

Local Abbreviation flag := (cs_int liq).
Local Abbreviation liq_avg := (cs_liq_avg liq x).
Local Abbreviation masked := (cs_masked liq x).
Local Abbreviation the_mean := (cs_mean n liq x).
Local Abbreviation signal := (cs_neutralized n liq x).
Local Abbreviation denom := (cs_abs_sum n liq x).
Local Abbreviation weight := (cs_weight n liq x).

Lemma cs_abs_sum_nonneg : 0 <= qpart denom.
Proof.
  destruct (nansum_abs_shape signal (assets n)) as [[s E] | E];
    unfold cs_abs_sum; rewrite E; simpl.
  - apply nansum_abs_fin in E. destruct E as [_ ->]. apply qsum_abs_nonneg.
  - apply Qcle_refl.
Qed.

(** Closed form of the returned entry: always a finite number. *)
Lemma cs_weight_closed (a : nat) :
  In a (assets n) ->
  weight a = Fin (qpart (signal a) / qpart denom).
Proof.
  intros Ha. unfold cs_weight.
  destruct (nansum_abs_shape signal (assets n)) as [[s E] | E];
    fold denom in E; rewrite E; simpl qpart.
  - apply nansum_abs_fin in E. destruct E as [HF Hs].
    specialize (HF a Ha).
    destruct (signal a) as [q| | |] eqn:Eq; simpl in HF;
      try contradiction.
    + destruct (Qc_eq_dec s 0) as [Z | NZ].
      * assert (q = 0).
        { apply (qsum_abs_zero (map (fun a => qpart (signal a))
                                    (assets n))).
          - rewrite <- Hs. exact Z.
          - apply in_map_iff. exists a. rewrite Eq. auto. }
        subst q. rewrite Z. simpl. rewrite qc_div_0. reflexivity.
      * rewrite vdiv_fin by exact NZ. reflexivity.
    + simpl. f_equal. unfold Qcdiv. ring.
  - rewrite qc_div_0. destruct (signal a); reflexivity.
Qed.

Lemma cs_weight_finite (a : nat) :
  In a (assets n) -> exists q, weight a = Fin q.
Proof. intros Ha. eexists. apply cs_weight_closed. exact Ha. Qed.

Lemma cs_neutralized_illiquid (a : nat) :
  liq a = false -> qpart (signal a) = 0.
Proof.
  intros H. unfold cs_neutralized, cs_int. rewrite H.
  destruct (vsub (liq_avg a) the_mean) as [q| | |]; simpl; try reflexivity.
  ring.
Qed.

Lemma cs_weight_illiquid (a : nat) :
  In a (assets n) -> liq a = false -> weight a = Fin 0.
Proof.
  intros Ha H. rewrite cs_weight_closed by exact Ha.
  rewrite cs_neutralized_illiquid by exact H.
  f_equal. unfold Qcdiv. ring.
Qed.

Lemma cs_weight_zero_den (a : nat) :
  In a (assets n) -> denom = Fin 0 -> weight a = Fin 0.
Proof.
  intros Ha H. rewrite cs_weight_closed by exact Ha.
  rewrite H. simpl. rewrite qc_div_0. reflexivity.
Qed.

Lemma cs_weight_nan_avg (a : nat) : x a = NaN -> weight a = Fin 0.
Proof.
  intros H. unfold cs_weight, cs_neutralized, cs_liq_avg. rewrite H.
  unfold cs_int. destruct (liq a); reflexivity.
Qed.

Lemma cs_no_liquid_abs_sum :
  (forall a, In a (assets n) -> liq a = false) -> denom = Fin 0.
Proof.
  intros H.
  assert (M : the_mean = NaN).
  { unfold cs_mean. apply nanmean_all_nan. intros a Ha.
    unfold cs_masked. rewrite (H a Ha). reflexivity. }
  unfold cs_abs_sum.
  apply (nansum_all_nan (fun a => vabs (signal a))). intros a _.
  unfold cs_neutralized. rewrite M.
  destruct (liq_avg a), flag; reflexivity.
Qed.

(** *** Full investment *)

Lemma cs_abs_sum_value :
  qpart denom = 0
  \/ qpart denom
     = qsum (map Qcabs (map (fun a => qpart (signal a)) (assets n))).
Proof.
  destruct (nansum_abs_shape signal (assets n)) as [[s E] | E];
    fold denom in E; rewrite E.
  - right. apply nansum_abs_fin in E. destruct E as [_ ->]. reflexivity.
  - left. reflexivity.
Qed.

Lemma cs_abs_weights_sum :
  vsum (map (fun a => vabs (weight a)) (assets n))
  = Fin (if Qc_eq_dec (qpart denom) 0 then 0 else 1).
Proof.
  rewrite (map_ext_in _ (fun a => Fin (Qcabs (qpart (signal a))
                                       * Qcabs (/ qpart denom)))).
  2:{ intros a Ha. rewrite cs_weight_closed by exact Ha. simpl.
      unfold Qcdiv. rewrite Qcabs_Qcmult. reflexivity. }
  rewrite vsum_fin. f_equal.
  rewrite <- (map_map (fun a => Qcabs (qpart (signal a)))
                      (fun q => q * Qcabs (/ qpart denom))).
  rewrite qsum_scale. rewrite <- map_map.
  destruct (Qc_eq_dec (qpart denom) 0) as [Z | NZ].
  - rewrite Z. replace (Qcabs (/ 0)) with 0 by (apply Qc_is_canon; reflexivity).
    ring.
  - destruct cs_abs_sum_value as [Z | <-]; [contradiction|].
    rewrite <- (Qcabs_pos _ cs_abs_sum_nonneg) at 1.
    rewrite <- Qcabs_Qcmult. rewrite Qcmult_inv_r by exact NZ.
    apply Qc_is_canon. reflexivity.
Qed.

(** The denominator counts for nothing exactly when a signal is infinite
    or every signal is zero or missing. *)
Lemma cs_abs_sum_zero_iff :
  qpart denom = 0 <->
  (exists a, In a (assets n) /\ (signal a = PInf \/ signal a = NInf))
  \/ (forall a, In a (assets n) -> signal a = Fin 0 \/ signal a = NaN).
Proof.
  split.
  - intros Z.
    destruct (nansum_abs_shape signal (assets n)) as [[s E] | E].
    + right. intros a Ha. unfold cs_abs_sum in Z. rewrite E in Z.
      simpl in Z. apply nansum_abs_fin in E. destruct E as [HF Hs].
      specialize (HF a Ha). rewrite Z in Hs. symmetry in Hs.
      pose proof (qsum_abs_zero _ Hs (qpart (signal a))) as Q.
      assert (I : In (qpart (signal a))
                     (map (fun a => qpart (signal a)) (assets n)))
        by (apply in_map_iff; exists a; auto).
      specialize (Q I).
      destruct (signal a) as [q| | |]; simpl in *; try contradiction.
      * left. rewrite Q. reflexivity.
      * right. reflexivity.
    + left. apply nansum_abs_inf in E. exact E.
  - intros [(a & Ha & Hs) | H].
    + destruct (nansum_abs_shape signal (assets n)) as [[s E] | E].
      * apply nansum_abs_fin in E. destruct E as [HF _].
        specialize (HF a Ha). destruct Hs as [Hs | Hs]; rewrite Hs in HF;
          contradiction.
      * unfold cs_abs_sum. rewrite E. reflexivity.
    + unfold cs_abs_sum. rewrite nansum_all_fin.
      * simpl. rewrite map_map. apply qsum_zeros. intros a Ha.
        destruct (H a Ha) as [-> | ->]; apply Qc_is_canon; reflexivity.
      * apply Forall_forall. intros v Hv. apply in_map_iff in Hv.
        destruct Hv as (a & <- & Ha).
        destruct (H a Ha) as [-> | ->]; exact I.
Qed.

Lemma cs_abs_weights_zero :
  vsum (map (fun a => vabs (weight a)) (assets n)) = Fin 0
  <-> qpart denom = 0.
Proof.
  rewrite cs_abs_weights_sum.
  destruct (Qc_eq_dec (qpart denom) 0) as [Z | NZ].
  - split; [intros _; exact Z | reflexivity].
  - split; [|contradiction]. intros C. injection C as C. discriminate.
Qed.

(** *** Neutrality *)

Lemma cs_partial_liquid_sum (m : Qc) (l : list nat) :
  the_mean = Fin m ->
  (forall a, In a l -> fin_or_nan (masked a)) ->
  qsum (map (fun a => qpart (signal a)) (filter liq l))
  = qsum (map qpart (map masked l))
    - qc_of_nat (count_valid (map masked l)) * m.
Proof.
  intros Hm. induction l as [|a l IH]; intros HF.
  - simpl. unfold count_valid. simpl.
    replace (qc_of_nat 0) with 0 by (apply Qc_is_canon; reflexivity). ring.
  - assert (HFl : forall b, In b l -> fin_or_nan (masked b))
      by (intros; apply HF; right; assumption).
    specialize (IH HFl).
    pose proof (HF a (or_introl eq_refl)) as Ha.
    assert (Hq : qpart (signal a)
                 = qpart (masked a)
                   - (if isnan (masked a) then 0 else 1) * m).
    { unfold cs_neutralized, cs_masked, cs_liq_avg, cs_int in Ha |- *.
      rewrite Hm. destruct (liq a).
      - destruct (x a) as [q| | |]; simpl in Ha; try contradiction; simpl; ring.
      - destruct (x a) as [q| | |]; simpl; ring. }
    assert (Hl : liq a = false -> isnan (masked a) = true).
    { unfold cs_masked. intros ->. reflexivity. }
    unfold count_valid in *. simpl.
    destruct (liq a) eqn:El.
    + simpl. rewrite IH, Hq.
      destruct (isnan (masked a)); simpl; [|rewrite qc_of_nat_S]; ring.
    + rewrite IH. rewrite (Hl eq_refl). simpl.
      replace (qpart (masked a)) with 0; [ring|].
      unfold cs_masked. rewrite El. reflexivity.
Qed.

Lemma cs_neutralized_nonfin (a : nat) :
  is_finite the_mean = false -> is_finite (signal a) = false.
Proof.
  intros H. unfold cs_neutralized.
  apply vmul_nonfin_r. apply vsub_nonfin_r. exact H.
Qed.

Lemma cs_liquid_sum_zero :
  qsum (map (fun a => qpart (signal a)) (filter liq (assets n))) = 0.
Proof.
  destruct (is_finite the_mean) eqn:Ef.
  - destruct the_mean as [m| | |] eqn:Em; try discriminate.
    pose proof Em as E. unfold cs_mean, nanmean in E.
    apply vdiv_fin_inv in E. destruct E as (s & Hs & Hk & Hm).
    apply nansum_fin_inv in Hs. destruct Hs as [HF Hs].
    rewrite (cs_partial_liquid_sum m (assets n) Em).
    + rewrite <- Hs, Hm. field. exact Hk.
    + intros a Ha. rewrite Forall_forall in HF. apply HF.
      apply in_map. exact Ha.
  - apply qsum_zeros. intros a _.
    pose proof (cs_neutralized_nonfin a Ef) as H.
    destruct (signal a); try discriminate; reflexivity.
Qed.

Lemma cs_liquid_weights_sum :
  vsum (map weight (filter liq (assets n))) = Fin 0.
Proof.
  rewrite (map_ext_in _ (fun a => Fin (qpart (signal a)
                                       * / qpart denom))).
  2:{ intros a Ha. apply filter_In in Ha. destruct Ha as [Ha _].
      rewrite cs_weight_closed by exact Ha. reflexivity. }
  rewrite vsum_fin. f_equal.
  rewrite <- (map_map (fun a => qpart (signal a))
                      (fun q => q * / qpart denom)).
  rewrite qsum_scale. rewrite cs_liquid_sum_zero. ring.
Qed.

(** *** When the weights sum to zero *)

Hypothesis x_finite : forall a, In a (assets n) -> exists q, x a = Fin q.

Lemma cs_masked_fin_or_nan (a : nat) :
  In a (assets n) -> fin_or_nan (masked a).
Proof.
  intros Ha. destruct (x_finite a Ha) as [q Hq].
  unfold cs_masked, cs_liq_avg, cs_int. rewrite Hq.
  destruct (liq a); exact I.
Qed.

Lemma cs_mean_fin_of_liquid (a : nat) :
  In a (assets n) -> liq a = true -> exists m, the_mean = Fin m.
Proof.
  intros Ha Hl. unfold cs_mean, nanmean.
  rewrite nansum_all_fin.
  2:{ apply Forall_forall. intros v Hv. apply in_map_iff in Hv.
      destruct Hv as (b & <- & Hb). apply cs_masked_fin_or_nan. exact Hb. }
  assert (P : (0 < count_valid (map masked (assets n)))%nat).
  { apply (count_valid_pos _ (masked a)).
    - apply in_map. exact Ha.
    - destruct (x_finite a Ha) as [q Hq].
      unfold cs_masked, cs_liq_avg, cs_int. rewrite Hl, Hq. reflexivity. }
  destruct (count_valid (map masked (assets n))) as [|k]; [lia|].
  rewrite vdiv_fin by apply qc_of_nat_pos. eexists. reflexivity.
Qed.

Lemma cs_neutralized_fin (m : Qc) (a : nat) :
  the_mean = Fin m -> In a (assets n) -> exists q, signal a = Fin q.
Proof.
  intros Hm Ha. destruct (x_finite a Ha) as [q Hq].
  unfold cs_neutralized, cs_liq_avg, cs_int. rewrite Hm, Hq.
  destruct (liq a); simpl; eexists; reflexivity.
Qed.

Lemma cs_zero_sum_cases :
  qpart denom = 0 ->
  (forall a, In a (assets n) -> signal a = Fin 0)
  \/ (forall a, In a (assets n) -> liq a = false).
Proof.
  intros HS. destruct (existsb liq (assets n)) eqn:Ex.
  - left. apply existsb_exists in Ex. destruct Ex as (a0 & Ha0 & Hl0).
    destruct (cs_mean_fin_of_liquid a0 Ha0 Hl0) as [m Hm].
    assert (E : denom
                = Fin (qsum (map qpart (map (fun a => vabs (signal a))
                                            (assets n))))).
    { unfold cs_abs_sum. apply nansum_all_fin.
      apply Forall_forall. intros v Hv. apply in_map_iff in Hv.
      destruct Hv as (b & <- & Hb).
      destruct (cs_neutralized_fin m b Hm Hb) as [q ->]. exact I. }
    pose proof E as E'. apply nansum_abs_fin in E'. destruct E' as [_ Hs].
    rewrite E in HS. simpl in HS. rewrite Hs in HS.
    intros a Ha. destruct (cs_neutralized_fin m a Hm Ha) as [q Hq].
    rewrite Hq. f_equal.
    apply (qsum_abs_zero _ HS). apply in_map_iff. exists a.
    rewrite Hq. auto.
  - right. intros a Ha. destruct (liq a) eqn:El; [|reflexivity].
    assert (T : existsb liq (assets n) = true)
      by (apply existsb_exists; exists a; auto).
    congruence.
Qed.

End CrossSectionFacts.

(* ================================================================== *)
(** ** From one time step to the arrays of [step] *)

Lemma weights_cross_section (n : nat) (il pr : arr) (t a : nat) :
  weights n il pr t a
  = cs_weight n (fun b => vgt0 (il t b)) (avg_returns pr t) a.
Proof. reflexivity. Qed.

Lemma neutralized_cross_section (n : nat) (il pr : arr) (t a : nat) :
  liq_avg_returns_neutralized n il pr t a
  = cs_neutralized n (fun b => vgt0 (il t b)) (avg_returns pr t) a.
Proof. reflexivity. Qed.

Lemma abs_sum_cross_section (n : nat) (il pr : arr) (t : nat) :
  abs_sum n il pr t
  = cs_abs_sum n (fun b => vgt0 (il t b)) (avg_returns pr t).
Proof. reflexivity. Qed.

Lemma in_assets (n a : nat) : In a (assets n) <-> a < n.
Proof. unfold assets. rewrite in_seq. lia. Qed.

Lemma vle0_not_gt0 (v : fval) : vle0 v = true -> vgt0 v = false.
Proof.
  destruct v as [q| | |]; simpl; try discriminate; try reflexivity.
  destruct (q ?= 0)%Qc; auto; discriminate.
Qed.

(** *** The rolling window *)

Lemma window_at_length (w : nat) (x : nat -> fval) (t : nat) :
  length (window_at w x t) = w.
Proof. unfold window_at. rewrite length_map, length_seq. reflexivity. Qed.


Lemma rolling_mean_nan (w : nat) (x : arr) (t a : nat) :
  In NaN (window_at w (fun s => x s a) t) -> rolling_mean w x t a = NaN.
Proof.
  intros H. unfold rolling_mean.
  apply count_valid_nan_lt in H. rewrite window_at_length in H.
  destruct (Nat.leb_spec w (count_valid (window_at w (fun s => x s a) t)));
    [lia | reflexivity].
Qed.

Lemma rolling_mean_finite (w : nat) (x : arr) (t a : nat) :
  w <> 0 ->
  Forall (fun v => is_finite v = true) (window_at w (fun s => x s a) t) ->
  rolling_mean w x t a
  = Fin (qsum (map qpart (window_at w (fun s => x s a) t)) / qc_of_nat w)%Qc.
Proof.
  intros Hw HF. unfold rolling_mean.
  assert (C : count_valid (window_at w (fun s => x s a) t) = w).
  { rewrite count_valid_no_nan; [apply window_at_length|].
    eapply Forall_impl; [|exact HF]. intros v Hv. destruct v; auto; discriminate. }
  rewrite C, Nat.leb_refl. unfold nanmean. rewrite C.
  rewrite nansum_all_fin.
  - destruct w as [|k]; [contradiction|]. apply vdiv_fin. apply qc_of_nat_pos.
  - eapply Forall_impl; [|exact HF]. intros v Hv.
    destruct v; simpl in *; auto; discriminate.
Qed.

(** *** The running mean *)

Lemma map_const_repeat {A B : Type} (f : A -> B) (c : B) (l : list A) :
  (forall a, In a l -> f a = c) -> map f l = repeat c (length l).
Proof.
  induction l as [|a l IH]; intros H; [reflexivity|].
  simpl. rewrite (H a (or_introl eq_refl)). f_equal.
  apply IH. intros; apply H; right; assumption.
Qed.

Lemma window_at_before (w : nat) (x : nat -> fval) (t : nat) :
  window_at w x t = window_before w x (S t).
Proof.
  unfold window_at, window_before. apply map_ext. intros i.
  rewrite Nat.add_1_r. reflexivity.
Qed.

Lemma window_before_start (w : nat) (x : nat -> fval) :
  window_before w x 0 = repeat NaN w.
Proof.
  unfold window_before.
  rewrite (map_const_repeat _ NaN), length_seq; [reflexivity|].
  intros i Hi. apply in_seq in Hi.
  destruct (Nat.ltb_spec (0 + i) w); [reflexivity | lia].
Qed.

Lemma window_before_head (w : nat) (x : nat -> fval) (k : nat) :
  0 < w ->
  hd NaN (window_before w x k) = if k <? w then NaN else x (k - w).
Proof.
  intros Hw. unfold window_before.
  destruct w as [|m]; [lia|]. simpl. rewrite Nat.add_0_r. reflexivity.
Qed.

Lemma window_before_succ (w : nat) (x : nat -> fval) (k : nat) :
  0 < w ->
  window_before w x (S k) = tl (window_before w x k) ++ [x k].
Proof.
  intros Hw. unfold window_before. destruct w as [|m]; [lia|].
  rewrite seq_S at 1. rewrite map_app. simpl map at 2.
  simpl tl. rewrite <- seq_shift, map_map. f_equal.
  - apply map_ext_in. intros i Hi. rewrite Nat.add_succ_r. reflexivity.
  - destruct (Nat.ltb_spec (S (k + m)) (S m)); [lia|].
    f_equal. f_equal. lia.
Qed.

Lemma window_before_length (w : nat) (x : nat -> fval) (k : nat) :
  length (window_before w x k) = w.
Proof. unfold window_before. rewrite length_map, length_seq. reflexivity. Qed.

Lemma mm_slide_padding (s : mm_state) (ai : fval) :
  mm_slide s ai NaN = mm_add s ai.
Proof. unfold mm_slide, mm_add. destruct (isnan ai); reflexivity. Qed.

Lemma mm_run_succ (w : nat) (x : nat -> fval) (k : nat) :
  0 < w ->
  mm_run w x (S k)
  = mm_slide (mm_run w x k) (x k) (hd NaN (window_before w x k)).
Proof.
  intros Hw. rewrite window_before_head by exact Hw. simpl.
  destruct (k <? w); [rewrite mm_slide_padding|]; reflexivity.
Qed.

Lemma count_valid_app (l1 l2 : list fval) :
  count_valid (l1 ++ l2) = count_valid l1 + count_valid l2.
Proof. unfold count_valid. rewrite filter_app, length_app. reflexivity. Qed.

Lemma count_valid_repeat_nan (w : nat) : count_valid (repeat NaN w) = 0.
Proof. induction w as [|w IH]; [reflexivity | exact IH]. Qed.

Lemma mm_count_slide (s : mm_state) (ai h : fval) (r : list fval) :
  mm_count s = count_valid (h :: r) ->
  mm_count (mm_slide s ai h) = count_valid (r ++ [ai]).
Proof.
  intros H. rewrite count_valid_app. unfold mm_slide, count_valid in *.
  simpl in *. destruct (isnan ai), (isnan h); simpl in *; lia.
Qed.

(** The running count is the number of observations in the window. *)
Lemma mm_count_window (w : nat) (x : nat -> fval) (k : nat) :
  0 < w -> mm_count (mm_run w x k) = count_valid (window_before w x k).
Proof.
  intros Hw. induction k as [|k IH].
  - rewrite window_before_start, count_valid_repeat_nan. reflexivity.
  - rewrite mm_run_succ, window_before_succ by exact Hw.
    pose proof (window_before_length w x k) as L.
    destruct (window_before w x k) as [|h r]; [simpl in L; lia|].
    apply mm_count_slide. exact IH.
Qed.

Lemma mm_sum_slide (s : mm_state) (ai h : fval) (r : list fval) :
  mm_sum s = Fin (qsum (map qpart (h :: r))) ->
  fin_or_nan ai -> fin_or_nan h ->
  mm_sum (mm_slide s ai h) = Fin (qsum (map qpart (r ++ [ai]))).
Proof.
  intros H Ha Hh. rewrite map_app, qsum_app. unfold mm_slide.
  destruct ai as [a| | |], h as [b| | |]; simpl in *; try contradiction;
    rewrite ?H; simpl; f_equal; ring.
Qed.

Lemma qsum_repeat_nan (w : nat) : qsum (map qpart (repeat NaN w)) = Q2Qc 0.
Proof.
  induction w as [|w IH]; [reflexivity|]. simpl. rewrite IH.
  apply Qc_is_canon. reflexivity.
Qed.

(** As long as no infinite entry has been met, the running sum is the sum
    of the numbers in the window. *)
Lemma mm_sum_window (w : nat) (x : nat -> fval) (k : nat) :
  0 < w -> (forall i, i < k -> fin_or_nan (x i)) ->
  mm_sum (mm_run w x k) = Fin (qsum (map qpart (window_before w x k))).
Proof.
  intros Hw. induction k as [|k IH]; intros H.
  - rewrite window_before_start, qsum_repeat_nan. reflexivity.
  - rewrite mm_run_succ, window_before_succ by exact Hw.
    pose proof (window_before_length w x k) as L.
    pose proof (window_before_head w x k Hw) as Hd.
    destruct (window_before w x k) as [|h r] eqn:E; [simpl in L; lia|].
    apply mm_sum_slide.
    + apply IH. intros i Hi. apply H. lia.
    + apply H. lia.
    + simpl in Hd. rewrite Hd.
      destruct (k <? w) eqn:C; [exact I|].
      apply Nat.ltb_ge in C. apply H. lia.
Qed.

Lemma mm_run_ext (w : nat) (x y : nat -> fval) (k : nat) :
  (forall i, i < k -> x i = y i) -> mm_run w x k = mm_run w y k.
Proof.
  induction k as [|k IH]; intros H; [reflexivity|].
  simpl. rewrite IH by (intros; apply H; lia).
  rewrite (H k) by lia.
  destruct (Nat.ltb_spec k w); [reflexivity|].
  rewrite (H (k - w)) by lia. reflexivity.
Qed.

Lemma move_mean_ext (w : nat) (x y : nat -> fval) (t : nat) :
  (forall s, s <= t -> x s = y s) -> move_mean w x t = move_mean w y t.
Proof.
  intros H. unfold move_mean.
  rewrite (mm_run_ext w x y (S t)) by (intros; apply H; lia).
  reflexivity.
Qed.

(** A missing entry in the window leaves fewer than [w] observations. *)
Lemma move_mean_nan (w : nat) (x : nat -> fval) (t : nat) :
  0 < w -> In NaN (window_at w x t) -> move_mean w x t = NaN.
Proof.
  intros Hw H. unfold move_mean.
  destruct (t + 1 <? w); [reflexivity|].
  rewrite mm_count_window by exact Hw.
  rewrite <- window_at_before.
  apply count_valid_nan_lt in H. rewrite window_at_length in H.
  destruct (Nat.leb_spec w (count_valid (window_at w x t)));
    [lia | reflexivity].
Qed.

(** Where the series has had no infinite entry so far, the running mean is
    the windowed mean. *)
Lemma move_mean_rolling (w : nat) (x : arr) (t a : nat) :
  0 < w -> (forall s, s <= t -> fin_or_nan (x s a)) ->
  move_mean w (fun s => x s a) t = rolling_mean w x t a.
Proof.
  intros Hw H.
  assert (F : Forall fin_or_nan (window_at w (fun s => x s a) t)).
  { apply Forall_forall. intros v Hv. unfold window_at in Hv.
    apply in_map_iff in Hv. destruct Hv as (i & <- & Hi).
    apply in_seq in Hi.
    destruct (Nat.ltb_spec (t + 1 + i) w); [exact I|]. apply H. lia. }
  destruct (Nat.ltb_spec (t + 1) w) as [P | P].
  - rewrite move_mean_nan, rolling_mean_nan; try reflexivity; try exact Hw;
      unfold window_at; apply in_map_iff; exists 0;
      (split; [|apply in_seq; lia]);
      destruct (Nat.ltb_spec (t + 1 + 0) w); try reflexivity; lia.
  - unfold move_mean, rolling_mean.
    destruct (Nat.ltb_spec (t + 1) w); [lia|].
    rewrite mm_count_window, mm_sum_window; try exact Hw;
      [|intros i Hi; apply H; lia].
    rewrite <- window_at_before.
    destruct (Nat.leb_spec w (count_valid (window_at w (fun s => x s a) t)))
      as [C | C]; [|reflexivity].
    unfold nanmean. rewrite nansum_all_fin by exact F.
    destruct (count_valid (window_at w (fun s => x s a) t)) as [|c];
      [lia|].
    rewrite !vdiv_fin by apply qc_of_nat_pos.
    destruct (t <? w); [reflexivity|].
    simpl. f_equal. unfold Qcdiv. ring.
Qed.

Lemma returns_first (pr : arr) (a : nat) : returns pr 0 a = NaN.
Proof. unfold returns, prices_shifted, shift. apply vdiv_nan_r. Qed.

(** The window that ends before position [window] reaches the padding or
    the first return, which has no predecessor. *)
Lemma avg_returns_warm_up (pr : arr) (t a : nat) :
  t < window -> avg_returns pr t a = NaN.
Proof.
  intros Ht. unfold avg_returns. apply move_mean_nan;
    [unfold window; lia|].
  unfold window_at. apply in_map_iff. exists 0. split.
  - destruct (Nat.ltb_spec (t + 1 + 0) window) as [L | G]; [reflexivity|].
    replace (t + 1 + 0 - window) with 0 by lia. apply returns_first.
  - apply in_seq. unfold window. lia.
Qed.

(** *** Dependence on the past only *)

Lemma returns_ext (pr pr' : arr) (t a : nat) :
  (forall s, s <= t -> pr s a = pr' s a) ->
  returns pr t a = returns pr' t a.
Proof.
  intros H. unfold returns, prices_shifted, shift.
  rewrite (H t (Nat.le_refl t)).
  destruct t as [|t']; [reflexivity|]. rewrite (H t') by lia. reflexivity.
Qed.

Lemma avg_returns_ext (pr pr' : arr) (t a : nat) :
  (forall s, s <= t -> pr s a = pr' s a) ->
  avg_returns pr t a = avg_returns pr' t a.
Proof.
  intros H. unfold avg_returns. apply move_mean_ext.
  intros s Hs. apply returns_ext. intros u Hu. apply H. lia.
Qed.

(** Where an asset has had no infinite return so far, its running mean is
    the windowed mean of its returns. *)
Lemma avg_returns_rolling (pr : arr) (t a : nat) :
  (forall s, s <= t -> fin_or_nan (returns pr s a)) ->
  avg_returns pr t a = rolling_mean window (returns pr) t a.
Proof.
  intros H. unfold avg_returns.
  apply (move_mean_rolling window (returns pr) t a); [|exact H].
  unfold window. lia.
Qed.

Lemma cs_weight_ext (n : nat) (liq liq' : nat -> bool) (x x' : nat -> fval)
      (a : nat) :
  (forall b, In b (assets n) -> liq b = liq' b /\ x b = x' b) ->
  In a (assets n) ->
  cs_weight n liq x a = cs_weight n liq' x' a.
Proof.
  intros H Ha.
  assert (Hm : cs_mean n liq x = cs_mean n liq' x').
  { unfold cs_mean. f_equal. apply map_ext_in. intros b Hb.
    destruct (H b Hb) as [E1 E2].
    unfold cs_masked, cs_liq_avg, cs_int. rewrite E1, E2. reflexivity. }
  assert (Hn : forall b, In b (assets n) ->
                 cs_neutralized n liq x b = cs_neutralized n liq' x' b).
  { intros b Hb. destruct (H b Hb) as [E1 E2].
    unfold cs_neutralized, cs_liq_avg, cs_int. rewrite Hm, E1, E2.
    reflexivity. }
  unfold cs_weight. rewrite (Hn a Ha). f_equal. f_equal.
  unfold cs_abs_sum. f_equal. apply map_ext_in. intros b Hb.
  rewrite (Hn b Hb). reflexivity.
Qed.

Lemma weights_ext (n : nat) (il il' pr pr' : arr) (t a : nat) :
  (forall b, b < n -> il t b = il' t b) ->
  (forall s b, s <= t -> b < n -> pr s b = pr' s b) ->
  a < n ->
  weights n il pr t a = weights n il' pr' t a.
Proof.
  intros Hil Hpr Ha. rewrite !weights_cross_section.
  apply cs_weight_ext; [|apply in_assets; exact Ha].
  intros b Hb. apply in_assets in Hb. split.
  - rewrite (Hil b Hb). reflexivity.
  - apply avg_returns_ext. intros s Hs. apply Hpr; assumption.
Qed.

Lemma weights_row_ext (n : nat) (il il' pr pr' : arr) (t : nat) :
  (forall b, b < n -> il t b = il' t b) ->
  (forall s b, s <= t -> b < n -> pr s b = pr' s b) ->
  weights_row n il pr t = weights_row n il' pr' t.
Proof.
  intros Hil Hpr. unfold weights_row. apply map_ext_in. intros a Ha.
  apply in_assets in Ha. apply weights_ext; assumption.
Qed.

(** *** Deciding equations between computed results *)

Lemma fval_eqb_eq (x y : fval) : fval_eqb x y = true -> x = y.
Proof.
  destruct x, y; simpl; try discriminate; try reflexivity.
  intros H. f_equal. apply Qc_eq_bool_correct. exact H.
Qed.

Lemma fval_eqb_neq (x y : fval) : fval_eqb x y = false -> x <> y.
Proof.
  intros H E. subst y. destruct x as [q| | |]; simpl in H; try discriminate.
  unfold Qc_eq_bool in H. destruct (Qc_eq_dec q q); [discriminate | auto].
Qed.

Lemma row_eqb_eq (l1 l2 : list fval) : row_eqb l1 l2 = true -> l1 = l2.
Proof.
  revert l2. induction l1 as [|x l1 IH]; intros [|y l2]; simpl;
    try discriminate; [reflexivity|].
  intros H. apply andb_prop in H. destruct H as [H1 H2].
  f_equal; [apply fval_eqb_eq; exact H1 | apply IH; exact H2].
Qed.

Lemma row_eqb_neq (l1 l2 : list fval) : row_eqb l1 l2 = false -> l1 <> l2.
Proof.
  revert l2. induction l1 as [|x l1 IH]; intros [|y l2]; simpl;
    try discriminate.
  intros H E. injection E as E1 E2. apply andb_false_iff in H.
  destruct H as [H | H].
  - apply fval_eqb_neq in H. contradiction.
  - apply IH in H. contradiction.
Qed.

Lemma result_eqb_eq (r1 r2 : option WeightVector) :
  result_eqb r1 r2 = true -> r1 = r2.
Proof.
  destruct r1 as [[t1 l1]|], r2 as [[t2 l2]|]; simpl; try discriminate;
    [|reflexivity].
  unfold wv_eqb. simpl. intros H. apply andb_prop in H. destruct H as [H1 H2].
  apply Z.eqb_eq in H1. apply row_eqb_eq in H2. subst. reflexivity.
Qed.

Lemma result_eqb_neq (r1 r2 : option WeightVector) :
  result_eqb r1 r2 = false -> r1 <> r2.
Proof.
  destruct r1 as [[t1 l1]|], r2 as [[t2 l2]|]; simpl; try discriminate.
  unfold wv_eqb. simpl. intros H E. injection E as E1 E2.
  apply andb_false_iff in H. destruct H as [H | H].
  - apply Z.eqb_neq in H. contradiction.
  - apply row_eqb_neq in H. contradiction.
Qed.


Lemma full_historyb_correct (data : Panel) (t : nat) :
  full_historyb data t = true -> full_history data t.
Proof.
  unfold full_historyb, full_history. intros H a La.
  rewrite forallb_forall in H.
  specialize (H a (proj2 (in_assets _ _) La)).
  apply Forall_forall. rewrite forallb_forall in H. exact H.
Qed.

Lemma sortedb_descending (data : Panel) :
  sortedb (fun u v => Z.ltb v u) data = true -> descending data.
Proof.
  unfold sortedb, descending. intros H. rewrite forallb_forall in H.
  intros i j Hij. induction Hij as [|j Hij IH]; intros Hj.
  - apply Z.ltb_lt. apply H. apply in_seq. lia.
  - apply Z.lt_trans with (p_time data j).
    + apply Z.ltb_lt. apply H. apply in_seq. lia.
    + apply IH. lia.
Qed.

Lemma closes_nonzerob_correct (data : Panel) :
  closes_nonzerob data = true -> closes_nonzero data.
Proof.
  unfold closes_nonzerob, closes_nonzero. intros H i a Hi Ha.
  rewrite forallb_forall in H.
  assert (I : In i (seq 0 (ntime data))) by (apply in_seq; lia).
  specialize (H i I). rewrite forallb_forall in H.
  specialize (H a (proj2 (in_assets _ _) Ha)).
  destruct (p_close data i a) as [q| | |]; try discriminate; [|left; reflexivity].
  right. exists q. split; [reflexivity|]. intros E. subst q.
  discriminate.
Qed.


(** *** The reversal and the last row *)

Lemma reverse_time_involutive {A : Type} (n : nat) (x : nat -> A) (t : nat) :
  t < n -> reverse_time n (reverse_time n x) t = x t.
Proof. intros H. unfold reverse_time. f_equal. lia. Qed.

Lemma step_as_last_row (data : Panel) :
  step data = last_row_in_order (reversed data).
Proof. reflexivity. Qed.

Lemma wv_eq (t1 t2 : Z) (l1 l2 : list fval) :
  t1 = t2 -> l1 = l2 ->
  Some {| wv_time := t1; wv_weights := l1 |}
  = Some {| wv_time := t2; wv_weights := l2 |}.
Proof. intros -> ->. reflexivity. Qed.

Lemma step_of_reversed (data : Panel) :
  step (reversed data) = last_row_in_order data.
Proof.
  unfold step, last_row_in_order. simpl.
  destruct (ntime data <? window); [reflexivity|].
  destruct (ntime data) as [|last] eqn:En; [reflexivity|].
  apply wv_eq.
  - unfold time_of, reverse_time. simpl. f_equal. lia.
  - apply weights_row_ext.
    + intros b _. unfold is_liquid_of. simpl. unfold reverse_time.
      rewrite En. f_equal. lia.
    + intros s b Hs _. unfold prices_of. simpl. unfold reverse_time.
      rewrite En. f_equal. lia.
Qed.

Lemma reversed_ascending (data : Panel) :
  descending data -> ascending (reversed data).
Proof.
  unfold descending, ascending. simpl. intros H i j Hij Hj.
  unfold reverse_time. apply H; lia.
Qed.

Lemma step_same_inside (d1 d2 : Panel) :
  same_inside d1 d2 -> step d1 = step d2.
Proof.
  intros (Hn & Ha & H). unfold step. rewrite <- Hn.
  destruct (ntime d1 <? window); [reflexivity|].
  destruct (ntime d1) as [|last] eqn:En; [reflexivity|].
  apply wv_eq.
  - unfold time_of, reverse_time. rewrite <- Hn, En. apply H. lia.
  - unfold is_liquid_of, prices_of. rewrite <- Hn, <- Ha, En.
    apply weights_row_ext.
    + intros b Hb. unfold reverse_time.
      apply (proj2 (H (S last - 1 - last) ltac:(lia))). exact Hb.
    + intros s b Hs Hb. unfold reverse_time.
      apply (proj2 (H (S last - 1 - s) ltac:(lia))). exact Hb.
Qed.

Lemma step_upto (data : Panel) (t : nat) :
  t < ntime data -> window <= t + 1 ->
  step (upto data t)
  = Some {| wv_time := time_of data t; wv_weights := weights_at data t |}.
Proof.
  intros Ht Hw. unfold step.
  change (ntime (upto data t)) with (t + 1).
  destruct (Nat.ltb_spec (t + 1) window) as [L | _]; [lia|].
  rewrite Nat.add_1_r.
  apply wv_eq.
  - unfold time_of, reverse_time.
    change (ntime (upto data t)) with (t + 1).
    change (p_time (upto data t))
      with (fun i => p_time data (i + (ntime data - 1 - t))).
    cbv beta. f_equal. lia.
  - unfold weights_at, is_liquid_of, prices_of.
    change (nasset (upto data t)) with (nasset data).
    apply weights_row_ext.
    + intros b _. unfold reverse_time.
      change (ntime (upto data t)) with (t + 1).
      change (p_is_liquid (upto data t))
        with (fun i a => p_is_liquid data (i + (ntime data - 1 - t)) a).
      cbv beta. f_equal. lia.
    + intros s b Hs _. unfold reverse_time.
      change (ntime (upto data t)) with (t + 1).
      change (p_close (upto data t))
        with (fun i a => p_close data (i + (ntime data - 1 - t)) a).
      cbv beta. f_equal. lia.
Qed.

Lemma step_short (data : Panel) :
  ntime data < window -> step data = None.
Proof.
  intros H. unfold step.
  destruct (Nat.ltb_spec (ntime data) window); [reflexivity | lia].
Qed.

Lemma step_long (data : Panel) :
  window <= ntime data ->
  step data
  = Some {| wv_time := p_time data 0;
            wv_weights := weights_at data (ntime data - 1) |}.
Proof.
  intros H. unfold step.
  destruct (Nat.ltb_spec (ntime data) window) as [L | _]; [lia|].
  destruct (ntime data) as [|last] eqn:En; [unfold window in H; lia|].
  apply wv_eq.
  - unfold time_of, reverse_time. rewrite En. f_equal. lia.
  - unfold weights_at. f_equal. lia.
Qed.

Lemma step_inv (data : Panel) (w : WeightVector) :
  step data = Some w ->
  window <= ntime data
  /\ w = {| wv_time := p_time data 0;
            wv_weights := weights_at data (ntime data - 1) |}.
Proof.
  intros H. destruct (le_lt_dec window (ntime data)) as [L | G].
  - split; [exact L|]. rewrite (step_long data L) in H.
    injection H as <-. reflexivity.
  - rewrite (step_short data G) in H. discriminate.
Qed.

Lemma weights_zero_warm_up (n : nat) (il pr : arr) (t : nat) :
  t < window -> weights_row n il pr t = zeros n.
Proof.
  intros Ht. unfold weights_row, zeros.
  rewrite (map_const_repeat (weights n il pr t) (Fin (Q2Qc 0)) (assets n)).
  - unfold assets. rewrite length_seq. reflexivity.
  - intros a _. rewrite weights_cross_section.
    apply cs_weight_nan_avg. apply avg_returns_warm_up. exact Ht.
Qed.

(** *** Returns and their rolling mean *)



Lemma window_at_nth (w : nat) (x : nat -> fval) (t i : nat) :
  i < w ->
  nth i (window_at w x t) NaN
  = if t + 1 + i <? w then NaN else x (t + 1 + i - w).
Proof.
  intros Hi. unfold window_at.
  set (f := fun i => if t + 1 + i <? w then NaN else x (t + 1 + i - w)).
  rewrite (nth_indep _ NaN (f 0))
    by (rewrite length_map, length_seq; exact Hi).
  rewrite map_nth. rewrite seq_nth by exact Hi. reflexivity.
Qed.


(** With numbers in the window and no infinite return before it, no return
    so far is infinite. *)
Lemma window_numbers_prefix (pr : arr) (t a : nat) :
  Forall (fun v => is_finite v = true)
         (window_at window (fun s => returns pr s a) t) ->
  (forall s, s + window <= t -> fin_or_nan (returns pr s a)) ->
  forall s, s <= t -> fin_or_nan (returns pr s a).
Proof.
  intros F P s Hs.
  destruct (le_lt_dec (s + window) t) as [L | G]; [apply P; exact L|].
  assert (Hi : s + window - (t + 1) < window) by lia.
  pose proof (window_at_nth window (fun s => returns pr s a) t _ Hi) as N.
  destruct (Nat.ltb_spec (t + 1 + (s + window - (t + 1))) window) as [C | C];
    [lia|].
  replace (t + 1 + (s + window - (t + 1)) - window) with s in N by lia.
  rewrite Forall_forall in F.
  assert (Fs : is_finite (returns pr s a) = true).
  { rewrite <- N. apply F. apply nth_In. rewrite window_at_length. exact Hi. }
  destruct (returns pr s a); try discriminate; exact I.
Qed.


Lemma full_history_avg (data : Panel) (t a : nat) :
  full_history data t -> a < nasset data ->
  no_infinite_return_before data t a ->
  exists q, avg_returns (prices_of data) t a = Fin q.
Proof.
  intros H Ha P. eexists.
  rewrite avg_returns_rolling
    by (apply window_numbers_prefix; [apply (H a Ha) | exact P]).
  apply rolling_mean_finite.
  - unfold window. discriminate.
  - apply (H a Ha).
Qed.

Lemma no_infinite_return_beforeb_correct (data : Panel) (t a : nat) :
  no_infinite_return_beforeb data t a = true ->
  no_infinite_return_before data t a.
Proof.
  intros H s Hs. unfold no_infinite_return_beforeb in H.
  rewrite forallb_forall in H.
  specialize (H s ltac:(apply in_seq; lia)).
  destruct (returns (prices_of data) s a); try discriminate; exact I.
Qed.

(** *** The pandas pipeline *)

Lemma pandas_weights_cross_section (n : nat) (il pr : arr) (t a : nat) :
  Pandas.weights n il pr t a
  = cs_weight n (fun b => vgt0 (il t b)) (Pandas.avg_returns pr t) a.
Proof. reflexivity. Qed.

Section NoGaps.

Variable pr : arr.
Variables n a : nat.

Hypothesis values : forall s, s < n ->
  pr s a = NaN \/ exists q, pr s a = Fin q /\ q <> Q2Qc 0.

Hypothesis prefix : forall s, S s < n -> pr (S s) a = NaN -> pr s a = NaN.




End NoGaps.

(* ================================================================== *)
(** ** The properties of the specification *)



(** C2 (full investment), as the code has it.  At every time step the
    absolute values of the weights sum to 1 or to 0.  They sum to 0 exactly
    when the neutralized signal of some asset is infinite or the neutralized
    signal of every asset is zero or missing.  Where every asset has 100
    trailing returns that are numbers and no infinite return before them,
    they sum to 0 only if the neutralized signal of every asset is zero or
    no asset is liquid. *)
Theorem full_investment (data : Panel) (t : nat) :
  (vsum (map vabs (weights_at data t)) = Fin (Q2Qc 1)
   \/ vsum (map vabs (weights_at data t)) = Fin (Q2Qc 0))
  /\ (vsum (map vabs (weights_at data t)) = Fin (Q2Qc 0) <->
      (exists a, a < nasset data
                 /\ (neutralized_at data t a = PInf
                     \/ neutralized_at data t a = NInf))
      \/ (forall a, a < nasset data ->
            neutralized_at data t a = Fin (Q2Qc 0)
            \/ neutralized_at data t a = NaN))
  /\ (full_history data t ->
      (forall a, a < nasset data -> no_infinite_return_before data t a) ->
      vsum (map vabs (weights_at data t)) = Fin (Q2Qc 0) ->
      (forall a, a < nasset data -> neutralized_at data t a = Fin (Q2Qc 0))
      \/ (forall a, a < nasset data -> liquid_at data t a = false)).
Proof.
  set (liq := fun b => vgt0 (is_liquid_of data t b)).
  set (x := avg_returns (prices_of data) t).
  assert (E : vsum (map vabs (weights_at data t))
              = vsum (map (fun a => vabs (cs_weight (nasset data) liq x a))
                          (assets (nasset data)))).
  { unfold weights_at, weights_row. rewrite map_map. reflexivity. }
  rewrite E. split; [|split].
  - rewrite (cs_abs_weights_sum (nasset data) liq x).
    destruct (Qc_eq_dec (qpart (cs_abs_sum (nasset data) liq x)) (Q2Qc 0));
      [right | left]; reflexivity.
  - rewrite (cs_abs_weights_zero (nasset data) liq x).
    rewrite (cs_abs_sum_zero_iff (nasset data) liq x).
    split; (intros [(a & Ha & Hs) | A];
            [left; exists a; split; [apply in_assets; exact Ha | exact Hs]
            |right; intros a Ha; apply (A a); apply in_assets; exact Ha]).
  - intros H P Z. apply (cs_abs_weights_zero (nasset data) liq x) in Z.
    destruct (cs_zero_sum_cases (nasset data) liq x) as [A | B].
    + intros a Ha. apply in_assets in Ha.
      apply (full_history_avg data t a H Ha (P a Ha)).
    + exact Z.
    + left. intros a Ha. apply (A a). apply in_assets. exact Ha.
    + right. intros a Ha. apply (B a). apply in_assets. exact Ha.
Qed.

Lemma full_investment_witness :
  full_history demo 101
  /\ (forall a, a < nasset demo -> no_infinite_return_before demo 101 a)
  /\ vsum (map vabs (weights_at demo 101)) = Fin (Q2Qc 1)
  /\ ~ (forall a, a < nasset demo -> neutralized_at demo 101 a = Fin (Q2Qc 0)).
Proof.
  assert (F : full_history demo 101)
    by (apply full_historyb_correct; vm_compute; reflexivity).
  assert (P : forall a, a < nasset demo ->
                no_infinite_return_before demo 101 a).
  { intros a Ha. apply no_infinite_return_beforeb_correct.
    destruct a as [|[|[|a]]]; [vm_compute; reflexivity ..|simpl in Ha; lia]. }
  assert (N : ~ (forall a, a < nasset demo ->
                   neutralized_at demo 101 a = Fin (Q2Qc 0))).
  { intros A. specialize (A 0 ltac:(simpl; lia)). revert A.
    apply fval_eqb_neq. vm_compute. reflexivity. }
  assert (L : ~ (forall a, a < nasset demo -> liquid_at demo 101 a = false)).
  { intros A. specialize (A 0 ltac:(simpl; lia)). discriminate A. }
  split; [exact F|]. split; [exact P|]. split; [|exact N].
  destruct (full_investment demo 101) as ([One | Zero] & _ & C);
    [exact One|].
  exfalso. destruct (C F P Zero) as [A | B]; [exact (N A) | exact (L B)].
Defined.

(** C2 as stated fails: in a Panel whose first asset closes at zero once,
    at the last time step every asset is liquid and has 100 trailing return
    observations, the absolute values of the weights sum to 0, and yet no
    neutralized signal is zero.  So it is in a Panel of two liquid assets
    of which one has a close missing in the window: the signal of that
    asset is missing, not zero. *)
Lemma full_investment_counterexample :
  (forall a, a < nasset zero_close_panel ->
     count_valid (trailing_returns zero_close_panel 101 a) = 100
     /\ liquid_at zero_close_panel 101 a = true)
  /\ vsum (map vabs (weights_at zero_close_panel 101)) = Fin (Q2Qc 0)
  /\ neutralized_at zero_close_panel 101 0 = NaN
  /\ neutralized_at zero_close_panel 101 1 = NInf
  /\ neutralized_at zero_close_panel 101 2 = NInf
  /\ step zero_close_panel
     = Some {| wv_time := 18101%Z;
               wv_weights := zeros (nasset zero_close_panel) |}
  /\ liquid_at missing_panel 101 0 = true
  /\ liquid_at missing_panel 101 1 = true
  /\ vsum (map vabs (weights_at missing_panel 101)) = Fin (Q2Qc 0)
  /\ neutralized_at missing_panel 101 0 = NaN
  /\ neutralized_at missing_panel 101 1 = Fin (Q2Qc 0).
Proof.
  split.
  { intros a Ha.
    destruct a as [|[|[|a]]]; [split; vm_compute; reflexivity ..|].
    simpl in Ha. lia. }
  split; [apply fval_eqb_eq; vm_compute; reflexivity|].
  split; [apply fval_eqb_eq; vm_compute; reflexivity|].
  split; [apply fval_eqb_eq; vm_compute; reflexivity|].
  split; [apply fval_eqb_eq; vm_compute; reflexivity|].
  split; [apply result_eqb_eq; vm_compute; reflexivity|].
  split; [reflexivity|]. split; [reflexivity|].
  split; [apply fval_eqb_eq; vm_compute; reflexivity|].
  split; apply fval_eqb_eq; vm_compute; reflexivity.
Qed.

(** C3 (liquidity mask).  Whenever [is_liquid <= 0] for an asset at a time
    step, the weight of that asset at that step is 0, whatever its prices
    are. *)
Theorem liquidity_mask (data : Panel) (t a : nat) :
  a < nasset data ->
  vle0 (is_liquid_of data t a) = true ->
  weight_at data t a = Fin (Q2Qc 0).
Proof.
  intros Ha H. unfold weight_at. rewrite weights_cross_section.
  apply cs_weight_illiquid.
  - apply in_assets. exact Ha.
  - apply vle0_not_gt0. exact H.
Qed.

Lemma liquidity_mask_witness :
  vle0 (is_liquid_of demo 101 2) = true
  /\ weight_at demo 101 2 = Fin (Q2Qc 0).
Proof.
  split; [reflexivity|].
  apply (liquidity_mask demo 101 2); [simpl; lia | reflexivity].
Defined.

(** C4 (cross-sectional neutrality).  At a time step with at least one
    liquid asset and a nonzero normalization denominator, the weights of the
    liquid assets sum to exactly 0.  (In exact arithmetic the sum is 0 at
    the other time steps as well, where all weights are 0.) *)
Theorem neutrality (data : Panel) (t : nat) :
  (exists a, a < nasset data /\ liquid_at data t a = true) ->
  abs_sum_at data t <> Fin (Q2Qc 0) ->
  vsum (map (weight_at data t)
            (filter (liquid_at data t) (assets (nasset data))))
  = Fin (Q2Qc 0).
Proof.
  intros _ _.
  apply (cs_liquid_weights_sum (nasset data)
           (fun b => vgt0 (is_liquid_of data t b))
           (avg_returns (prices_of data) t)).
Qed.

Lemma neutrality_witness :
  vsum (map (weight_at demo 101)
            (filter (liquid_at demo 101) (assets (nasset demo))))
  = Fin (Q2Qc 0).
Proof.
  apply (neutrality demo 101).
  - exists 0. split; [simpl; lia | reflexivity].
  - apply fval_eqb_neq. vm_compute. reflexivity.
Defined.

(** C5 (last-index output), as the code has it.  [step] reverses the time
    axis of whatever it is given.  For a Panel of at least 100 time steps
    supplied with the most recent date first, [step] returns the Weight
    Vector of the most recent date:
    its time coordinate is the latest date of the Panel, its weights are the
    last row of the pipeline run over the rows in date order, and no entry
    outside the Panel takes part in it. *)
Theorem step_returns_most_recent (data : Panel) :
  window <= ntime data -> descending data ->
  exists w,
    step data = Some w
    /\ wv_time w = p_time data 0
    /\ (forall i, i < ntime data -> (p_time data i <= wv_time w)%Z)
    /\ ascending (reversed data)
    /\ Some w = last_row_in_order (reversed data)
    /\ (forall data', same_inside data data' -> step data' = Some w).
Proof.
  intros Hn Hd. pose proof (step_long data Hn) as E.
  eexists. split; [exact E|]. split; [reflexivity|]. split.
  - intros i Hi. cbn [wv_time]. destruct i as [|i]; [lia|].
    apply Z.lt_le_incl. apply Hd; lia.
  - split; [apply reversed_ascending; exact Hd|]. split.
    + rewrite <- E. apply step_as_last_row.
    + intros data' S. rewrite <- E. symmetry. apply step_same_inside.
      exact S.
Qed.

Lemma step_returns_most_recent_witness :
  exists w, step demo = Some w /\ wv_time w = 18101%Z.
Proof.
  assert (N : window <= ntime demo) by (unfold window; simpl; lia).
  assert (D : descending demo)
    by (apply sortedb_descending; vm_compute; reflexivity).
  destruct (step_returns_most_recent demo N D) as (w & E & T & _).
  exists w. split; [exact E|]. rewrite T. reflexivity.
Defined.

(** C5 as stated fails: on a Panel supplied in ascending date order [step]
    returns the vector labelled with the first, oldest date, and its weights
    are not those of the last time index. *)
Lemma last_index_counterexample :
  ascending (reversed demo)
  /\ step (reversed demo)
     = Some {| wv_time := p_time (reversed demo) 0;
               wv_weights := [Fin (Q2Qc (-1 # 2)); Fin (Q2Qc (1 # 2));
                              Fin (Q2Qc 0)] |}
  /\ p_time (reversed demo) 0 = 18000%Z
  /\ p_time (reversed demo) (ntime (reversed demo) - 1) = 18101%Z
  /\ last_row_in_order (reversed demo)
     = Some {| wv_time := 18101%Z;
               wv_weights := [Fin (Q2Qc (1 # 2)); Fin (Q2Qc (-1 # 2));
                              Fin (Q2Qc 0)] |}
  /\ step (reversed demo) <> last_row_in_order (reversed demo).
Proof.
  split.
  { apply reversed_ascending. apply sortedb_descending.
    vm_compute. reflexivity. }
  split; [apply result_eqb_eq; vm_compute; reflexivity|].
  split; [vm_compute; reflexivity|].
  split; [vm_compute; reflexivity|].
  split; [apply result_eqb_eq; vm_compute; reflexivity|].
  apply result_eqb_neq. vm_compute. reflexivity.
Qed.

(** C6 (zero-denominator guard).  Where the sum of the absolute neutralized
    signals is zero, as it is when no asset is liquid, every weight of the
    step is 0.  The division never fails: every weight of every step is a
    number, and so is every entry of the vector that [step] returns on a
    Panel long enough for its rolling mean. *)
Theorem zero_denominator_guard (data : Panel) (t : nat) :
  (abs_sum_at data t = Fin (Q2Qc 0) -> weights_at data t = zeros (nasset data))
  /\ ((forall a, a < nasset data -> liquid_at data t a = false) ->
      abs_sum_at data t = Fin (Q2Qc 0))
  /\ (forall a, a < nasset data -> exists q, weight_at data t a = Fin q)
  /\ (window <= ntime data ->
      exists w, step data = Some w
                /\ Forall (fun v => is_finite v = true) (wv_weights w)).
Proof.
  assert (F : forall u a, a < nasset data ->
                exists q, weight_at data u a = Fin q).
  { intros u a Ha. unfold weight_at. rewrite weights_cross_section.
    apply cs_weight_finite. apply in_assets. exact Ha. }
  split; [|split; [|split; [apply F|]]].
  - intros Z. unfold weights_at, weights_row, zeros.
    rewrite (map_const_repeat _ (Fin (Q2Qc 0))).
    + unfold assets. rewrite length_seq. reflexivity.
    + intros a Ha. rewrite weights_cross_section.
      apply cs_weight_zero_den; [exact Ha | exact Z].
  - intros L. unfold abs_sum_at. rewrite abs_sum_cross_section.
    apply cs_no_liquid_abs_sum. intros a Ha. apply L.
    apply in_assets. exact Ha.
  - intros Hn. eexists. split; [apply step_long; exact Hn|].
    cbn [wv_weights].
    apply Forall_forall. intros v Hv. unfold weights_at, weights_row in Hv.
    apply in_map_iff in Hv. destruct Hv as (a & <- & Ha).
    apply in_assets in Ha. destruct (F (ntime data - 1) a Ha) as [q Hq].
    unfold weight_at in Hq. rewrite Hq. reflexivity.
Qed.

Lemma zero_denominator_guard_witness :
  abs_sum_at flat_panel 101 = Fin (Q2Qc 0)
  /\ weights_at flat_panel 101 = zeros 2.
Proof.
  assert (Z : abs_sum_at flat_panel 101 = Fin (Q2Qc 0))
    by (apply fval_eqb_eq; vm_compute; reflexivity).
  split; [exact Z|].
  exact (proj1 (zero_denominator_guard flat_panel 101) Z).
Defined.

(** C7 (insufficient history), as the code has it.  On a Panel with fewer
    than 100 time steps the rolling mean has a window longer than the time
    axis and [step] fails; on a Panel with exactly 100 time steps [step]
    returns the all-zero vector; and in the weights of every longer Panel
    each of the first 100 time steps is all zero. *)
Theorem insufficient_history (data : Panel) :
  (ntime data < window -> step data = None)
  /\ (ntime data = window ->
      step data = Some {| wv_time := p_time data 0;
                          wv_weights := zeros (nasset data) |})
  /\ (window <= ntime data ->
      forall t, t < window -> weights_at data t = zeros (nasset data)).
Proof.
  split; [apply step_short|]. split.
  - intros Hw. rewrite step_long by lia. apply wv_eq; [reflexivity|].
    apply weights_zero_warm_up. unfold window in *. lia.
  - intros _ t Ht. apply weights_zero_warm_up. exact Ht.
Qed.

Lemma insufficient_history_witness :
  step (upto demo 99)
  = Some {| wv_time := p_time (upto demo 99) 0;
            wv_weights := zeros (nasset (upto demo 99)) |}
  /\ weights_at demo 40 = zeros (nasset demo).
Proof.
  assert (W : ntime (upto demo 99) = window) by reflexivity.
  assert (N : window <= ntime demo) by (unfold window; simpl; lia).
  assert (T : 40 < window) by (unfold window; lia).
  split.
  - exact (proj1 (proj2 (insufficient_history (upto demo 99))) W).
  - exact (proj2 (proj2 (insufficient_history demo)) N 40 T).
Defined.

(** C7 as stated fails on a Panel of forty days: it has fewer than 101 time
    steps and [step] fails on it, as it does on the Panel without dates. *)
Lemma insufficient_history_counterexample :
  0 < ntime short_panel < 101 /\ step short_panel = None
  /\ step empty_panel = None.
Proof. split; [simpl; lia | split; reflexivity]. Qed.




(** C9 (time reordering), as the code has it.  [step] reverses the time
    axis of every Panel, without looking at its order.  A Panel supplied in
    descending date order is thereby put in ascending order, and the result
    is the last row of the pipeline run over the rows in ascending order;
    on the same Panel supplied in ascending order the pipeline runs over the
    rows in descending order. *)
Theorem step_reverses (data : Panel) :
  descending data ->
  ascending (reversed data)
  /\ step data = last_row_in_order (reversed data)
  /\ step (reversed data) = last_row_in_order data.
Proof.
  intros Hd. split; [apply reversed_ascending; exact Hd|].
  split; [apply step_as_last_row | apply step_of_reversed].
Qed.

Lemma step_reverses_witness :
  descending demo
  /\ step (reversed demo) = last_row_in_order demo.
Proof.
  assert (D : descending demo)
    by (apply sortedb_descending; vm_compute; reflexivity).
  split; [exact D|].
  exact (proj2 (proj2 (step_reverses demo D))).
Defined.

(** C9 as stated fails: the result on a Panel in descending order differs
    from the result on the same Panel supplied in ascending order. *)
Lemma reordering_counterexample :
  descending demo
  /\ ascending (reversed demo)
  /\ step demo
     = Some {| wv_time := 18101%Z;
               wv_weights := [Fin (Q2Qc (1 # 2)); Fin (Q2Qc (-1 # 2));
                              Fin (Q2Qc 0)] |}
  /\ step (reversed demo)
     = Some {| wv_time := 18000%Z;
               wv_weights := [Fin (Q2Qc (-1 # 2)); Fin (Q2Qc (1 # 2));
                              Fin (Q2Qc 0)] |}
  /\ step demo <> step (reversed demo).
Proof.
  assert (D : descending demo)
    by (apply sortedb_descending; vm_compute; reflexivity).
  split; [exact D|].
  split; [apply reversed_ascending; exact D|].
  split; [apply result_eqb_eq; vm_compute; reflexivity|].
  split; [apply result_eqb_eq; vm_compute; reflexivity|].
  apply result_eqb_neq. vm_compute. reflexivity.
Qed.



(** C10 (implementation equivalence) does not hold of the code.  [step]
    is documented to implement the pandas pipeline that precedes it, but
    with a close missing in the history of a liquid asset [pct_change]
    fills the gap forward while the shifted difference of [step] is
    missing, and the last row of the pandas weights differs from the vector
    that [step] returns. *)
Theorem step_differs_from_pandas :
  step gap_panel
  = Some {| wv_time := 18101%Z;
            wv_weights := [Fin (Q2Qc 0); Fin (Q2Qc (-1 # 2));
                           Fin (Q2Qc (1 # 2))] |}
  /\ Pandas.last_row gap_panel
     = Some {| wv_time := 18101%Z;
               wv_weights := [Fin (Q2Qc (1 # 151)); Fin (Q2Qc (-1 # 2));
                              Fin (Q2Qc (149 # 302))] |}
  /\ step gap_panel <> Pandas.last_row gap_panel.
Proof.
  split; [apply result_eqb_eq; vm_compute; reflexivity|].
  split; [apply result_eqb_eq; vm_compute; reflexivity|].
  apply result_eqb_neq. vm_compute. reflexivity.
Qed.

(* ================================================================== *)
(** ** Further properties of the code *)

(** *** Rational arithmetic *)

Ltac hide_abs :=
  repeat match goal with
         | |- context [Qcabs ?x] =>
             let a := fresh "a" in set (a := Qcabs x) in *; clearbody a
         | H : context [Qcabs ?x] |- _ =>
             let a := fresh "a" in set (a := Qcabs x) in *; clearbody a
         end.

Ltac qc_to_q :=
  hide_abs;
  unfold Qcle, Qclt, Qcminus, Qcdiv, Qcplus, Qcmult, Qcopp, Qcinv, Q2Qc in *;
  cbn [this] in *;
  repeat (rewrite Qred_correct in * ).

Section RationalLists.

Local Open Scope Qc_scope.





Lemma qsum_constant {A : Type} (f : A -> Qc) (c : Qc) (l : list A) :
  (forall a, In a l -> f a = c) ->
  qsum (map f l) = qc_of_nat (length l) * c.
Proof.
  induction l as [|a l IH]; intros H.
  - simpl. replace (qc_of_nat 0) with 0 by (apply Qc_is_canon; reflexivity).
    ring.
  - simpl length. rewrite qc_of_nat_S. simpl.
    rewrite (H a (or_introl eq_refl)).
    rewrite IH by (intros; apply H; right; assumption). ring.
Qed.

Lemma qsum_filter {A : Type} (f : A -> Qc) (p : A -> bool) (l : list A) :
  (forall a, In a l -> p a = false -> f a = 0) ->
  qsum (map f l) = qsum (map f (filter p l)).
Proof.
  induction l as [|a l IH]; intros H; [reflexivity|].
  simpl. rewrite IH by (intros; apply H; [right|]; assumption).
  destruct (p a) eqn:E; [reflexivity|].
  rewrite (H a (or_introl eq_refl) E). ring.
Qed.

End RationalLists.

(** *** Vectors of numbers *)

Section NumberVectors.

Local Open Scope Qc_scope.


Lemma gross_exposure_fin (ws : list Qc) :
  gross_exposure (map Fin ws) = Fin (qsum (map Qcabs ws)).
Proof.
  unfold gross_exposure. rewrite nansum_all_fin.
  - rewrite !map_map. reflexivity.
  - apply Forall_forall. intros v Hv. rewrite map_map in Hv.
    apply in_map_iff in Hv. destruct Hv as (q & <- & _). exact I.
Qed.



End NumberVectors.

(** *** One time step, continued *)

Section CrossSectionBalance.

Local Open Scope Qc_scope.

Variable n : nat.
Variable liq : nat -> bool.
Variable x : nat -> fval.

Local Abbreviation signal := (cs_neutralized n liq x).
Local Abbreviation denom := (cs_abs_sum n liq x).
Local Abbreviation weight := (cs_weight n liq x).
Local Abbreviation wq := (fun a => qpart (signal a) / qpart denom).

Lemma cs_row_closed :
  map weight (assets n) = map Fin (map wq (assets n)).
Proof.
  rewrite map_map. apply map_ext_in. intros a Ha.
  apply cs_weight_closed. exact Ha.
Qed.

Lemma cs_all_sum_zero :
  qsum (map (fun a => qpart (signal a)) (assets n)) = 0.
Proof.
  rewrite (qsum_filter _ liq).
  - apply cs_liquid_sum_zero.
  - intros a _ H. apply cs_neutralized_illiquid. exact H.
Qed.

Lemma cs_wq_sum : qsum (map wq (assets n)) = 0.
Proof.
  rewrite <- (map_map (fun a => qpart (signal a))
                      (fun q => q * / qpart denom)).
  rewrite qsum_scale, cs_all_sum_zero. ring.
Qed.

Lemma cs_wq_abs_sum :
  qsum (map Qcabs (map wq (assets n)))
  = if Qc_eq_dec (qpart denom) 0 then 0 else 1.
Proof.
  pose proof (cs_abs_weights_sum n liq x) as H.
  rewrite (map_ext_in _ (fun a => Fin (Qcabs (wq a)))) in H.
  - rewrite vsum_fin in H. injection H as H. rewrite map_map. exact H.
  - intros a Ha. rewrite cs_weight_closed by exact Ha. reflexivity.
Qed.

Lemma cs_wq_abs_sum_le : qsum (map Qcabs (map wq (assets n))) <= 1.
Proof.
  rewrite cs_wq_abs_sum. destruct (Qc_eq_dec (qpart denom) 0).
  - unfold Qcle. simpl. discriminate.
  - apply Qcle_refl.
Qed.

End CrossSectionBalance.

(** *** Balance of a row of weights *)

Section Balance.

Local Open Scope Qc_scope.


Lemma cs_row_balanced (n : nat) (liq : nat -> bool) (x : nat -> fval) :
  balanced (map (cs_weight n liq x) (assets n)).
Proof.
  exists (map (fun a => qpart (cs_neutralized n liq x a)
                        / qpart (cs_abs_sum n liq x)) (assets n)).
  split; [apply cs_row_closed|]. split; [apply cs_wq_sum|].
  rewrite cs_wq_abs_sum.
  destruct (Qc_eq_dec (qpart (cs_abs_sum n liq x)) 0); auto.
Qed.


Lemma pandas_row_balanced (data : Panel) (t : nat) :
  balanced (pandas_weights_at data t).
Proof.
  apply (cs_row_balanced (nasset data)
           (fun b => vgt0 (is_liquid_of data t b))
           (Pandas.avg_returns (prices_of data) t)).
Qed.


Lemma balanced_gross (l : list fval) :
  balanced l -> gross_exposure l = Fin 1 \/ gross_exposure l = Fin 0.
Proof.
  intros (ws & -> & _ & [G | G]); rewrite gross_exposure_fin, G; auto.
Qed.



End Balance.

(** *** Order, concentration and infinities within one time step *)

Section CrossSectionOrder.

Local Open Scope Qc_scope.

Variable n : nat.
Variable liq : nat -> bool.
Variable x : nat -> fval.

Local Abbreviation masked := (cs_masked liq x).
Local Abbreviation the_mean := (cs_mean n liq x).
Local Abbreviation signal := (cs_neutralized n liq x).
Local Abbreviation denom := (cs_abs_sum n liq x).
Local Abbreviation weight := (cs_weight n liq x).

Lemma qc_inv_nonneg (d : Qc) : 0 <= d -> 0 <= / d.
Proof.
  unfold Qcle, Qcinv, Q2Qc. cbn [this]. rewrite !Qred_correct.
  apply Qinv_le_0_compat.
Qed.

Lemma cs_signal_liquid (a : nat) (q m : Qc) :
  liq a = true -> x a = Fin q -> the_mean = Fin m ->
  signal a = Fin (q - m).
Proof.
  intros Hl Hx Hm. unfold cs_neutralized, cs_liq_avg, cs_int.
  rewrite Hl, Hx, Hm. simpl. f_equal. ring.
Qed.

Lemma cs_weight_monotone (a b : nat) (qa qb : Qc) :
  In a (assets n) -> In b (assets n) ->
  liq a = true -> liq b = true ->
  x a = Fin qa -> x b = Fin qb -> qa <= qb ->
  qpart (weight a) <= qpart (weight b).
Proof.
  intros Ha Hb La Lb Xa Xb Hq.
  rewrite !cs_weight_closed by assumption. simpl qpart.
  assert (S : qpart (signal a) <= qpart (signal b)).
  { destruct (is_finite the_mean) eqn:F.
    - destruct the_mean as [m| | |] eqn:Em; try discriminate.
      rewrite (cs_signal_liquid a qa m La Xa Em).
      rewrite (cs_signal_liquid b qb m Lb Xb Em). simpl.
      qc_to_q. lra.
    - pose proof (cs_neutralized_nonfin n liq x a F) as Na.
      pose proof (cs_neutralized_nonfin n liq x b F) as Nb.
      destruct (signal a), (signal b); try discriminate; apply Qcle_refl. }
  unfold Qcdiv. apply Qcmult_le_compat_r; [exact S|].
  apply qc_inv_nonneg. apply cs_abs_sum_nonneg.
Qed.

Lemma cs_single_liquid (a : nat) :
  (forall b, In b (assets n) -> liq b = true -> b = a) ->
  forall b, In b (assets n) -> weight b = Fin 0.
Proof.
  intros H.
  assert (Z : forall b, In b (assets n) -> qpart (signal b) = 0).
  { intros b Hb. destruct (liq b) eqn:Lb;
      [|apply cs_neutralized_illiquid; exact Lb].
    pose proof (cs_liquid_sum_zero n liq x) as T.
    rewrite (qsum_constant _ (qpart (signal b))) in T.
    - assert (I : In b (filter liq (assets n)))
        by (apply filter_In; auto).
      destruct (filter liq (assets n)) as [|c l]; [contradiction|].
      apply Qcmult_integral in T. destruct T as [T | T]; [|exact T].
      exfalso. revert T. apply qc_of_nat_pos.
    - intros c Hc. apply filter_In in Hc. destruct Hc as [Hc Lc].
      rewrite (H c Hc Lc), (H b Hb Lb). reflexivity. }
  intros b Hb. rewrite cs_weight_closed by exact Hb.
  rewrite (Z b Hb). f_equal. unfold Qcdiv. ring.
Qed.



(** With two liquid assets whose average returns are different numbers,
    and no infinite average return among the liquid assets, the step is
    fully invested. *)
Lemma cs_invested (a1 a2 : nat) (q1 q2 : Qc) :
  (forall b, In b (assets n) -> liq b = true -> fin_or_nan (x b)) ->
  In a1 (assets n) -> In a2 (assets n) ->
  liq a1 = true -> liq a2 = true ->
  x a1 = Fin q1 -> x a2 = Fin q2 -> q1 <> q2 ->
  qpart denom <> 0.
Proof.
  intros HF H1 H2 L1 L2 X1 X2 Hq.
  assert (M : forall b, In b (assets n) -> fin_or_nan (masked b)).
  { intros b Hb. unfold cs_masked, cs_liq_avg, cs_int.
    destruct (liq b) eqn:Lb; [|exact I].
    specialize (HF b Hb Lb). destruct (x b); simpl in *; auto. }
  assert (Em : exists m, the_mean = Fin m).
  { unfold cs_mean, nanmean. rewrite nansum_all_fin.
    2:{ apply Forall_forall. intros v Hv. apply in_map_iff in Hv.
        destruct Hv as (b & <- & Hb). apply M. exact Hb. }
    assert (P : (0 < count_valid (map masked (assets n)))%nat).
    { apply (count_valid_pos _ (masked a1)); [apply in_map; exact H1|].
      unfold cs_masked, cs_liq_avg, cs_int. rewrite L1, X1. reflexivity. }
    destruct (count_valid (map masked (assets n))) as [|k]; [lia|].
    rewrite vdiv_fin by apply qc_of_nat_pos. eexists. reflexivity. }
  destruct Em as [m Em].
  assert (S : forall b, In b (assets n) -> fin_or_nan (signal b)).
  { intros b Hb. unfold cs_neutralized, cs_liq_avg, cs_int. rewrite Em.
    destruct (liq b) eqn:Lb.
    - specialize (HF b Hb Lb). destruct (x b); simpl in *; auto.
    - destruct (x b); simpl; auto. }
  assert (E : denom
              = Fin (qsum (map qpart (map (fun a => vabs (signal a))
                                          (assets n))))).
  { unfold cs_abs_sum. apply nansum_all_fin.
    apply Forall_forall. intros v Hv. apply in_map_iff in Hv.
    destruct Hv as (b & <- & Hb). specialize (S b Hb).
    destruct (signal b); simpl in *; auto. }
  pose proof E as E'. apply nansum_abs_fin in E'. destruct E' as [_ Hs].
  rewrite E. simpl. rewrite Hs. intros Z.
  pose proof (qsum_abs_zero _ Z) as A.
  assert (Z1 : q1 - m = 0).
  { apply A. apply in_map_iff. exists a1.
    rewrite (cs_signal_liquid a1 q1 m L1 X1 Em). auto. }
  assert (Z2 : q2 - m = 0).
  { apply A. apply in_map_iff. exists a2.
    rewrite (cs_signal_liquid a2 q2 m L2 X2 Em). auto. }
  apply Hq. rewrite <- (Qcplus_0_r q1), <- Z2.
  rewrite <- (Qcplus_0_r q2) at 2. rewrite <- Z1. ring.
Qed.

End CrossSectionOrder.

(** *** Rows, entries and returns *)

Lemma nth_weights_row (n : nat) (il pr : arr) (t a : nat) :
  a < n -> nth a (weights_row n il pr t) NaN = weights n il pr t a.
Proof.
  intros Ha. unfold weights_row, assets.
  rewrite (nth_indep _ NaN (weights n il pr t 0))
    by (rewrite length_map, length_seq; exact Ha).
  rewrite map_nth, seq_nth by exact Ha. reflexivity.
Qed.

Lemma step_weight_of (data : Panel) (w : WeightVector) (a : nat) :
  step data = Some w -> a < nasset data ->
  weight_of w a = weight_at data (ntime data - 1) a.
Proof.
  intros H Ha. apply step_inv in H. destruct H as [_ ->].
  unfold weight_of, weight_at, weights_at. cbn [wv_weights].
  apply nth_weights_row. exact Ha.
Qed.

(** The weights of a step depend on the prices through the returns of the
    window only, and on the liquidity indicators through their sign at that
    step only. *)
Lemma weights_row_by_returns (n : nat) (il il' pr pr' : arr) (t t' : nat) :
  (forall b, b < n -> vgt0 (il t b) = vgt0 (il' t' b)) ->
  (forall b, b < n -> avg_returns pr t b = avg_returns pr' t' b) ->
  weights_row n il pr t = weights_row n il' pr' t'.
Proof.
  intros Hl Hx. unfold weights_row. apply map_ext_in. intros a Ha.
  rewrite !weights_cross_section. apply cs_weight_ext; [|exact Ha].
  intros b Hb. apply in_assets in Hb. split; [apply Hl | apply Hx]; exact Hb.
Qed.



Lemma gross_exposure_zeros (n : nat) : gross_exposure (zeros n) = Fin (Q2Qc 0).
Proof.
  unfold gross_exposure, zeros.
  induction n as [|n IH]; [reflexivity|].
  unfold nansum in *. simpl. rewrite IH. reflexivity.
Qed.

Lemma returns_fin_or_nan (data : Panel) (s a : nat) :
  closes_nonzero data -> s < ntime data -> a < nasset data ->
  fin_or_nan (returns (prices_of data) s a).
Proof.
  intros H Hs Ha. destruct s as [|s]; [rewrite returns_first; exact I|].
  unfold returns, prices_shifted, shift, prices_of, reverse_time.
  destruct (H (ntime data - 1 - S s) a ltac:(lia) Ha) as [-> | (p & -> & _)];
    [exact I|].
  destruct (H (ntime data - 1 - s) a ltac:(lia) Ha) as [-> | (q & -> & Hq)];
    [exact I|].
  change (vsub (Fin p) (Fin q)) with (Fin (p + - q)%Qc).
  rewrite vdiv_fin by exact Hq. exact I.
Qed.

Lemma rolling_mean_fin_or_nan (w : nat) (x : arr) (t a : nat) :
  w <> 0 ->
  Forall fin_or_nan (window_at w (fun s => x s a) t) ->
  fin_or_nan (rolling_mean w x t a).
Proof.
  intros Hw HF.
  destruct (Nat.leb_spec w (count_valid (window_at w (fun s => x s a) t)))
    as [L | L].
  - rewrite rolling_mean_finite; [exact I | exact Hw |].
    rewrite <- (window_at_length w (fun s => x s a) t) in L at 1.
    apply count_valid_full in L.
    rewrite Forall_forall in *. intros v Hv.
    specialize (HF v Hv). specialize (L v Hv).
    destruct v; simpl in *; auto; discriminate.
  - unfold rolling_mean.
    destruct (Nat.leb_spec w (count_valid (window_at w (fun s => x s a) t)));
      [lia | exact I].
Qed.

Lemma avg_returns_fin_or_nan (data : Panel) (t a : nat) :
  closes_nonzero data -> t < ntime data -> a < nasset data ->
  fin_or_nan (avg_returns (prices_of data) t a).
Proof.
  intros H Ht Ha. rewrite avg_returns_rolling
    by (intros s Hs; apply returns_fin_or_nan; [exact H | lia | exact Ha]).
  apply rolling_mean_fin_or_nan.
  - unfold window. discriminate.
  - apply Forall_forall. intros v Hv. unfold window_at in Hv.
    apply in_map_iff in Hv. destruct Hv as (i & <- & Hi).
    apply in_seq in Hi.
    destruct (t + 1 + i <? window); [exact I|].
    apply returns_fin_or_nan; [exact H | lia | exact Ha].
Qed.

Lemma pandas_avg_returns_warm_up (pr : arr) (t a : nat) :
  t < window -> Pandas.avg_returns pr t a = NaN.
Proof.
  intros Ht. unfold Pandas.avg_returns, Pandas.rolling_mean.
  apply (rolling_mean_nan window
           (fun t a => Pandas.inf_to_nan (Pandas.returns pr t a))).
  unfold window_at. apply in_map_iff. exists 0. split.
  - destruct (Nat.ltb_spec (t + 1 + 0) window) as [L | G]; [reflexivity|].
    replace (t + 1 + 0 - window) with 0 by lia.
    unfold Pandas.returns, Pandas.pct_change, shift.
    rewrite vdiv_nan_r. reflexivity.
  - apply in_seq. unfold window. lia.
Qed.

(** *** Properties of [step] and of the pandas cell *)







(** X4 (momentum order).  Among the liquid assets with a defined average
    return, a higher average return never gets a lower weight. *)
Theorem momentum_order (data : Panel) (t a b : nat) (qa qb : Qc) :
  a < nasset data -> b < nasset data ->
  liquid_at data t a = true -> liquid_at data t b = true ->
  avg_returns (prices_of data) t a = Fin qa ->
  avg_returns (prices_of data) t b = Fin qb ->
  (qa <= qb)%Qc ->
  exists wa wb,
    weight_at data t a = Fin wa /\ weight_at data t b = Fin wb
    /\ (wa <= wb)%Qc.
Proof.
  intros Ha Hb La Lb Xa Xb Hq.
  apply in_assets in Ha. apply in_assets in Hb.
  pose proof (cs_weight_monotone (nasset data)
                (fun c => vgt0 (is_liquid_of data t c))
                (avg_returns (prices_of data) t)
                a b qa qb Ha Hb La Lb Xa Xb Hq) as M.
  unfold weight_at. rewrite !weights_cross_section.
  destruct (cs_weight_finite (nasset data)
              (fun c => vgt0 (is_liquid_of data t c))
              (avg_returns (prices_of data) t) a Ha) as [wa Ea].
  destruct (cs_weight_finite (nasset data)
              (fun c => vgt0 (is_liquid_of data t c))
              (avg_returns (prices_of data) t) b Hb) as [wb Eb].
  rewrite Ea, Eb in M. exists wa, wb.
  split; [exact Ea|]. split; [exact Eb | exact M].
Qed.

Lemma momentum_order_witness :
  exists wa wb,
    weight_at demo 101 1 = Fin wa /\ weight_at demo 101 0 = Fin wb
    /\ (wa <= wb)%Qc.
Proof.
  apply (momentum_order demo 101 1 0 (Q2Qc 0) (Q2Qc 1)).
  - simpl. lia.
  - simpl. lia.
  - reflexivity.
  - reflexivity.
  - apply fval_eqb_eq. vm_compute. reflexivity.
  - apply fval_eqb_eq. vm_compute. reflexivity.
  - unfold Qcle. simpl. discriminate.
Defined.

(** X5 (a single liquid asset).  When at most one asset is liquid at a time
    step, every weight of that step is 0: a lone asset cannot be
    neutralized against anything. *)
Theorem single_liquid_asset (data : Panel) (t a : nat) :
  (forall b, b < nasset data -> liquid_at data t b = true -> b = a) ->
  weights_at data t = zeros (nasset data).
Proof.
  intros H. unfold weights_at, weights_row, zeros.
  rewrite (map_const_repeat _ (Fin (Q2Qc 0))).
  - unfold assets. rewrite length_seq. reflexivity.
  - intros b Hb. rewrite weights_cross_section.
    apply (cs_single_liquid (nasset data)
             (fun c => vgt0 (is_liquid_of data t c))
             (avg_returns (prices_of data) t) a); [|exact Hb].
    intros c Hc Lc. apply H; [apply in_assets; exact Hc | exact Lc].
Qed.

Lemma single_liquid_asset_witness :
  weights_at lonely_panel 101 = zeros 3.
Proof.
  apply (single_liquid_asset lonely_panel 101 0).
  intros b Hb L.
  destruct b as [|[|[|b]]];
    [reflexivity
    | vm_compute in L; discriminate
    | vm_compute in L; discriminate
    | simpl in Hb; lia].
Defined.

(** X6 (when the book is invested).  On a Panel whose closes are nonzero
    numbers or missing, a time step at which two liquid assets have
    different average returns is fully invested: the absolute weights sum
    to 1. *)
Theorem fully_invested_when (data : Panel) (t a1 a2 : nat) (q1 q2 : Qc) :
  closes_nonzero data -> t < ntime data ->
  a1 < nasset data -> a2 < nasset data ->
  liquid_at data t a1 = true -> liquid_at data t a2 = true ->
  avg_returns (prices_of data) t a1 = Fin q1 ->
  avg_returns (prices_of data) t a2 = Fin q2 ->
  q1 <> q2 ->
  gross_exposure (weights_at data t) = Fin (Q2Qc 1).
Proof.
  intros Hc Ht H1 H2 L1 L2 X1 X2 Hq.
  set (liq := fun c => vgt0 (is_liquid_of data t c)).
  set (x := avg_returns (prices_of data) t).
  assert (D : qpart (cs_abs_sum (nasset data) liq x) <> Q2Qc 0).
  { apply (cs_invested (nasset data) liq x a1 a2 q1 q2); try assumption;
      try (apply in_assets; assumption).
    intros b Hb _. apply in_assets in Hb.
    apply avg_returns_fin_or_nan; assumption. }
  unfold weights_at, weights_row.
  change (weights (nasset data) (is_liquid_of data) (prices_of data) t)
    with (cs_weight (nasset data) liq x).
  rewrite cs_row_closed, gross_exposure_fin, cs_wq_abs_sum.
  destruct (Qc_eq_dec (qpart (cs_abs_sum (nasset data) liq x)) (Q2Qc 0));
    [contradiction | reflexivity].
Qed.

Lemma fully_invested_when_witness :
  gross_exposure (weights_at demo 101) = Fin (Q2Qc 1).
Proof.
  apply (fully_invested_when demo 101 0 1 (Q2Qc 1) (Q2Qc 0)).
  - apply closes_nonzerob_correct. vm_compute. reflexivity.
  - simpl. lia.
  - simpl. lia.
  - simpl. lia.
  - reflexivity.
  - reflexivity.
  - apply fval_eqb_eq. vm_compute. reflexivity.
  - apply fval_eqb_eq. vm_compute. reflexivity.
  - intros E. apply (f_equal this) in E. vm_compute in E. discriminate.
Defined.

Lemma returns_nan_price (pr : arr) (s a : nat) :
  pr s a = NaN -> returns pr s a = NaN.
Proof. intros H. unfold returns. rewrite H. reflexivity. Qed.

Lemma returns_nan_previous (pr : arr) (s a : nat) :
  pr s a = NaN -> returns pr (S s) a = NaN.
Proof.
  intros H. unfold returns, prices_shifted, shift. rewrite H.
  apply vdiv_nan_r.
Qed.

Lemma nan_price_zero_weight (n : nat) (il pr : arr) (t s a : nat) :
  s <= t -> t <= s + window -> pr s a = NaN ->
  weights n il pr t a = Fin (Q2Qc 0).
Proof.
  intros Hs Ht H. rewrite weights_cross_section. apply cs_weight_nan_avg.
  destruct (Nat.lt_ge_cases t window) as [W | W];
    [apply avg_returns_warm_up; exact W|].
  unfold avg_returns. apply move_mean_nan; [unfold window; lia|].
  unfold window_at. apply in_map_iff.
  destruct (Nat.eq_dec t (s + window)) as [E | E].
  - exists 0. split; [|apply in_seq; unfold window; lia].
    destruct (Nat.ltb_spec (t + 1 + 0) window); [lia|].
    replace (t + 1 + 0 - window) with (S s) by lia.
    apply returns_nan_previous. exact H.
  - exists (s + window - 1 - t). split; [|apply in_seq; lia].
    destruct (Nat.ltb_spec (t + 1 + (s + window - 1 - t)) window); [lia|].
    replace (t + 1 + (s + window - 1 - t) - window) with s by lia.
    apply returns_nan_price. exact H.
Qed.

(** X7 (a missing close).  If the close of an asset is missing in any of
    the 101 most recent rows of the Panel, [step] gives that asset the
    weight 0. *)
Theorem missing_close_zero_weight (data : Panel) (w : WeightVector)
        (i a : nat) :
  step data = Some w -> a < nasset data ->
  i < ntime data -> i <= window ->
  p_close data i a = NaN ->
  weight_of w a = Fin (Q2Qc 0).
Proof.
  intros H Ha Hi Hw Hp. rewrite (step_weight_of data w a H Ha).
  unfold weight_at.
  apply (nan_price_zero_weight _ _ _ _ (ntime data - 1 - i)); try lia.
  unfold prices_of, reverse_time.
  replace (ntime data - 1 - (ntime data - 1 - i)) with i by lia. exact Hp.
Qed.

Lemma missing_close_zero_weight_witness :
  exists w, step gap_panel = Some w
            /\ p_close gap_panel 100 0 = NaN
            /\ weight_of w 0 = Fin (Q2Qc 0).
Proof.
  assert (E := step_long gap_panel ltac:(unfold window; simpl; lia)).
  assert (P : p_close gap_panel 100 0 = NaN) by reflexivity.
  eexists. split; [exact E|]. split; [exact P|].
  apply (missing_close_zero_weight gap_panel _ 100 0 E);
    [simpl; lia | simpl; lia | unfold window; lia | exact P].
Defined.







(** X10 (liquidity history).  Of the liquidity indicators [step] uses the
    most recent row only, and of that row only whether each entry is
    positive: any other liquidity record with the same signs there gives
    the same result. *)
Theorem step_liquidity_sign_only (il : arr) (data : Panel) :
  (forall a, a < nasset data ->
     vgt0 (il 0 a) = vgt0 (p_is_liquid data 0 a)) ->
  step (with_liquidity il data) = step data.
Proof.
  intros H. unfold step.
  change (ntime (with_liquidity il data)) with (ntime data).
  destruct (ntime data <? window); [reflexivity|].
  destruct (ntime data) as [|last] eqn:En; [reflexivity|].
  apply wv_eq.
  - unfold time_of. simpl. rewrite En. reflexivity.
  - change (nasset (with_liquidity il data)) with (nasset data).
    apply weights_row_by_returns.
    + intros b Hb. unfold is_liquid_of, reverse_time. simpl. rewrite En.
      replace (S last - 1 - last) with 0 by lia. apply H. exact Hb.
    + intros b _. unfold prices_of. simpl. reflexivity.
Qed.

Lemma step_liquidity_sign_only_witness :
  step (with_liquidity other_liquidity demo) = step demo.
Proof.
  apply (step_liquidity_sign_only other_liquidity demo).
  intros a Ha.
  destruct a as [|[|[|a]]]; [reflexivity | reflexivity | reflexivity |].
  simpl in Ha. lia.
Defined.

(** *** A close of zero *)








(** *** The pandas cell and the submission template *)

Lemma pandas_row_zero_warm_up (data : Panel) (t : nat) :
  t < window -> pandas_weights_at data t = zeros (nasset data).
Proof.
  intros Ht. unfold pandas_weights_at, zeros.
  rewrite (map_const_repeat _ (Fin (Q2Qc 0))).
  - unfold assets. rewrite length_seq. reflexivity.
  - intros a _. rewrite pandas_weights_cross_section.
    apply cs_weight_nan_avg. apply pandas_avg_returns_warm_up. exact Ht.
Qed.

(** X12 (the full-investment check of the notebook).  The quantity that
    the notebook displays to check full investment,
    [weights.abs().sum(axis=1)], is 1 or 0 on every date, and it is 0, not
    1, on each of the first 100 dates. *)
Theorem pandas_investment_check (data : Panel) (t : nat) :
  (gross_exposure (pandas_weights_at data t) = Fin (Q2Qc 1)
   \/ gross_exposure (pandas_weights_at data t) = Fin (Q2Qc 0))
  /\ (t < window ->
      gross_exposure (pandas_weights_at data t) = Fin (Q2Qc 0)).
Proof.
  split.
  - apply balanced_gross. apply pandas_row_balanced.
  - intros Ht. rewrite pandas_row_zero_warm_up by exact Ht.
    apply gross_exposure_zeros.
Qed.

Lemma pandas_investment_check_witness :
  gross_exposure (pandas_weights_at demo 99) = Fin (Q2Qc 0)
  /\ gross_exposure (pandas_weights_at demo 100) = Fin (Q2Qc 1).
Proof.
  split.
  - apply (proj2 (pandas_investment_check demo 99)). unfold window. lia.
  - destruct (proj1 (pandas_investment_check demo 100)) as [O | Z];
      [exact O|].
    exfalso. revert Z. apply fval_eqb_neq. vm_compute. reflexivity.
Defined.



Lemma weights_rows_nth (data : Panel) (t : nat) :
  t < ntime data ->
  nth_error (weights_rows data) t
  = Some {| wv_time := time_of data t; wv_weights := weights_at data t |}.
Proof.
  intros Ht. unfold weights_rows.
  rewrite nth_error_map, nth_error_seq.
  destruct (Nat.ltb_spec t (ntime data)); [reflexivity | lia].
Qed.

(** X14 (the submission template).  The template at the end of the
    notebook fails where [step] fails, on a Panel of fewer than 100 time
    steps.  On a longer Panel it writes one vector per date: from the 100th
    date on, the vector of a date is what [step] returns when it is handed
    the rows up to that date, and the last one is what [step] returns on
    the whole Panel; for each of the first 99 dates the template writes the
    all-zero vector, while [step] fails on the rows up to that date. *)
Theorem template_is_walk_forward (data : Panel) :
  (ntime data < window -> template_weights data = None)
  /\ (window <= ntime data ->
      exists rows,
        template_weights data = Some rows
        /\ length rows = ntime data
        /\ (forall t, t < ntime data -> window <= t + 1 ->
              nth_error rows t = step (upto data t))
        /\ (forall t, t + 1 < window ->
              nth_error rows t
              = Some {| wv_time := time_of data t;
                        wv_weights := zeros (nasset data) |}
              /\ step (upto data t) = None)
        /\ nth_error rows (ntime data - 1) = step data).
Proof.
  unfold template_weights. split.
  - intros H. destruct (Nat.ltb_spec (ntime data) window);
      [reflexivity | lia].
  - intros H. destruct (Nat.ltb_spec (ntime data) window) as [L | _]; [lia|].
    exists (weights_rows data). split; [reflexivity|].
    split; [|split; [|split]].
    + unfold weights_rows. rewrite length_map, length_seq. reflexivity.
    + intros t Ht Hw.
      rewrite (weights_rows_nth data t Ht), (step_upto data t Ht Hw).
      reflexivity.
    + intros t Ht. split; [|apply (step_short (upto data t)); exact Ht].
      rewrite (weights_rows_nth data t) by lia.
      apply wv_eq; [reflexivity|].
      apply weights_zero_warm_up. lia.
    + rewrite (weights_rows_nth data (ntime data - 1))
        by (unfold window in H; lia).
      rewrite (step_long data H). apply wv_eq; [|reflexivity].
      unfold time_of, reverse_time. f_equal. unfold window in H. lia.
Qed.

Lemma template_is_walk_forward_witness :
  exists rows,
    template_weights demo_later = Some rows
    /\ nth_error rows 101 = step (upto demo_later 101)
    /\ nth_error rows (ntime demo_later - 1) = step demo_later
    /\ step (upto demo_later 40) = None.
Proof.
  assert (N : window <= ntime demo_later) by (unfold window; simpl; lia).
  destruct (proj2 (template_is_walk_forward demo_later) N)
    as (rows & E & _ & A & B & C).
  exists rows. split; [exact E|]. split; [|split; [exact C|]].
  - apply A; [simpl; lia | unfold window; lia].
  - apply (B 40). unfold window. lia.
Defined.

(** *** Assets that are not liquid *)

Section IlliquidAssets.

Local Open Scope Qc_scope.

Variable n : nat.
Variable liq : nat -> bool.
Variables x x' : nat -> fval.

Hypothesis same_liquid :
  forall b, In b (assets n) -> liq b = true -> x b = x' b.

Lemma vmul_zero_shape (v : fval) :
  nan_to_zero (vabs (vmul (Fin 0) v)) = Fin 0.
Proof.
  destruct v as [q| | |]; simpl; try reflexivity.
  f_equal. rewrite Qcmult_0_l. apply Qc_is_canon. reflexivity.
Qed.

Lemma nansum_same_terms {A : Type} (f g : A -> fval) (l : list A) :
  (forall a, In a l -> nan_to_zero (f a) = nan_to_zero (g a)) ->
  nansum (map f l) = nansum (map g l).
Proof.
  intros H. unfold nansum. rewrite !map_map. f_equal.
  apply map_ext_in. exact H.
Qed.

Lemma cs_mean_liquid_ext : cs_mean n liq x = cs_mean n liq x'.
Proof.
  unfold cs_mean. f_equal. apply map_ext_in. intros b Hb.
  unfold cs_masked, cs_liq_avg, cs_int.
  destruct (liq b) eqn:L; [|reflexivity].
  rewrite (same_liquid b Hb L). reflexivity.
Qed.

Lemma cs_abs_sum_liquid_ext : cs_abs_sum n liq x = cs_abs_sum n liq x'.
Proof.
  unfold cs_abs_sum. apply nansum_same_terms. intros b Hb.
  unfold cs_neutralized, cs_liq_avg, cs_int. rewrite cs_mean_liquid_ext.
  destruct (liq b) eqn:L.
  - rewrite (same_liquid b Hb L). reflexivity.
  - rewrite !vmul_zero_shape. reflexivity.
Qed.

Lemma cs_weight_liquid_ext (a : nat) :
  In a (assets n) -> cs_weight n liq x a = cs_weight n liq x' a.
Proof.
  intros Ha. destruct (liq a) eqn:L.
  - unfold cs_weight. rewrite cs_abs_sum_liquid_ext.
    unfold cs_neutralized, cs_liq_avg. rewrite cs_mean_liquid_ext.
    rewrite (same_liquid a Ha L). reflexivity.
  - rewrite !cs_weight_illiquid by assumption. reflexivity.
Qed.

End IlliquidAssets.

(** X15 (closes of assets that are not liquid).  The closes of an asset
    whose [is_liquid] is not positive in the most recent row have no
    influence on what [step] returns: with any other closes for such assets
    the result is the same. *)
Theorem step_ignores_illiquid_closes (cl : arr) (data : Panel) :
  (forall i a, i < ntime data -> a < nasset data ->
     vgt0 (p_is_liquid data 0 a) = true -> cl i a = p_close data i a) ->
  step (with_closes cl data) = step data.
Proof.
  intros H. unfold step.
  change (ntime (with_closes cl data)) with (ntime data).
  destruct (ntime data <? window); [reflexivity|].
  destruct (ntime data) as [|last] eqn:En; [reflexivity|].
  apply wv_eq.
  - unfold time_of. simpl. rewrite En. reflexivity.
  - change (nasset (with_closes cl data)) with (nasset data).
    unfold weights_row. apply map_ext_in. intros a Ha.
    rewrite !weights_cross_section.
    change (is_liquid_of (with_closes cl data)) with (is_liquid_of data).
    apply cs_weight_liquid_ext; [|exact Ha].
    intros b Hb L. apply in_assets in Hb.
    apply avg_returns_ext. intros s Hs.
    unfold prices_of, reverse_time.
    change (ntime (with_closes cl data)) with (ntime data).
    change (p_close (with_closes cl data)) with cl.
    rewrite En. apply H; [lia | exact Hb |].
    unfold is_liquid_of, reverse_time in L. rewrite En in L.
    replace (S last - 1 - last) with 0 in L by lia. exact L.
Qed.

Lemma step_ignores_illiquid_closes_witness :
  step (with_closes other_closes demo) = step demo.
Proof.
  apply (step_ignores_illiquid_closes other_closes demo).
  intros i a Hi Ha L.
  destruct a as [|[|[|a]]];
    [reflexivity | reflexivity | vm_compute in L; discriminate
    | simpl in Ha; lia].
Defined.

(** *** Gaps in the closes *)

Lemma pad_present (pr : arr) (s a : nat) :
  isnan (pr s a) = false -> Pandas.pad pr s a = pr s a.
Proof.
  intros H. destruct s as [|s]; [reflexivity|]. simpl.
  destruct (pr (S s) a); try reflexivity. discriminate.
Qed.

(** X16 (a gap in the closes).  On the date after a nonzero close on which
    the close is missing, the pandas cell computes a return of exactly 0,
    because [pct_change] carries the last close forward, whereas the return
    that [step] computes for that date is missing. *)
Theorem gap_return (data : Panel) (s a : nat) (q : Qc) :
  prices_of data s a = Fin q -> q <> Q2Qc 0 ->
  prices_of data (S s) a = NaN ->
  Pandas.returns (prices_of data) (S s) a = Fin (Q2Qc 0)
  /\ returns (prices_of data) (S s) a = NaN.
Proof.
  intros Hp Hq Hn. split; [|apply returns_nan_price; exact Hn].
  unfold Pandas.returns, Pandas.pct_change, shift.
  assert (P : Pandas.pad (prices_of data) s a = Fin q).
  { rewrite pad_present; [exact Hp | rewrite Hp; reflexivity]. }
  assert (P' : Pandas.pad (prices_of data) (S s) a = Fin q).
  { simpl. rewrite Hn. exact P. }
  rewrite P', P, vdiv_fin by exact Hq.
  unfold vsub, vneg, vadd. f_equal. field. exact Hq.
Qed.

Lemma gap_return_witness :
  Pandas.returns (prices_of gap_panel) 1 0 = Fin (Q2Qc 0)
  /\ returns (prices_of gap_panel) 1 0 = NaN.
Proof.
  apply (gap_return gap_panel 0 0 (Q2Qc 1)).
  - apply fval_eqb_eq. vm_compute. reflexivity.
  - intros E. apply (f_equal this) in E. vm_compute in E. discriminate.
  - reflexivity.
Defined.
